(** * Boundary-condition classification in [chapter3/robin_neumann_dirichlet]

    A shallow embedding of the notebook cells that tag boundary facets,
    build [BoundaryCondition] objects and fold them into the list of
    Dirichlet conditions [bcs] and the residual form [F].

    The finite-element library, the form language and the array library are
    external to the notebook.  Their objects are modelled symbolically (a
    form is the list of its integrals, an array is the list of its entries)
    and their mesh-dependent queries are parameters of a section. *)

From Stdlib Require Import String ZArith List Bool Lia.
From Stdlib Require Import Permutation Sorted Ring.
Import ListNotations.

Local Open Scope string_scope.
Local Open Scope list_scope.
Local Open Scope Z_scope.

(* ================================================================== *)
(** * Exceptions and results *)

(** The Python exceptions the modelled cells can end with.  [Rejected call]
    stands for whatever the interpreter or the library raises when [call]
    receives an operand it cannot use; the notebook does not fix its class. *)
Inductive exn : Type :=
| TypeError (msg : string)
| ValueError (msg : string)
| IndexError (msg : string)
| Rejected (call : string).

Inductive result (A : Type) : Type :=
| Ok (a : A)
| Raise (e : exn).

Arguments Ok {A} a.
Arguments Raise {A} e.

Definition result_bind {A B : Type} (r : result A) (k : A -> result B) : result B :=
  match r with
  | Ok a => k a
  | Raise e => Raise e
  end.

Declare Scope result_scope.
Delimit Scope result_scope with result.
Notation "x <- r ;; k" := (result_bind r (fun x => k))
  (at level 61, r at next level, right associativity) : result_scope.

(** A Python list display [[f x1, f x2, ...]]: the elements are evaluated
    from left to right and the first exception aborts the display. *)
Fixpoint list_display {A B : Type} (f : A -> result B) (xs : list A) : result (list B) :=
  match xs with
  | [] => Ok []
  | x :: rest =>
      (y <- f x ;; ys <- list_display f rest ;; Ok (y :: ys))%result
  end.

(* ================================================================== *)
(** * The form language *)

Module UFL.

(** Scalar expressions, as far as the boundary-condition class builds
    them.  A [Coefficient] is any expression handed in by the caller
    ([r], [s], [g], ...), opaque here and known by its notebook name. *)
Inductive expr : Type :=
| Coefficient (name : string)
| TrialFunction
| TestFunction
| Sub (a b : expr)
| Mul (a b : expr)
| Inner (a b : expr).

Inductive integral_type : Type :=
| cell             (* dx *)
| exterior_facet.  (* ds *)

(** [subdomain_id = None] integrates over the whole domain of the
    measure, [Some m] over the entities tagged [m]. *)
Record Measure : Type := {
  measure_type : integral_type;
  subdomain_id : option Z
}.

Record Integral : Type := {
  integrand : expr;
  measure : Measure
}.

(** A form is the sum of its integrals. *)
Definition Form : Type := list Integral.

(** [ds = Measure("ds", domain=mesh, subdomain_data=facet_tag)] *)
Definition ds_everywhere : Measure :=
  {| measure_type := exterior_facet; subdomain_id := None |}.

(** [measure(marker)] restricts a measure to one subdomain. *)
Definition restrict (dm : Measure) (marker : Z) : Measure :=
  {| measure_type := measure_type dm; subdomain_id := Some marker |}.

(** [integrand * measure] is a form with a single integral. *)
Definition integrate (e : expr) (dm : Measure) : Form :=
  [ {| integrand := e; measure := dm |} ].

(** [a + b] on forms: a new form holding the integrals of both.  The
    order in which a form stores its integrals has no meaning; it is kept
    here as the order of addition. *)
Definition add (a b : Form) : Form := a ++ b.

End UFL.

(* ================================================================== *)
(** * Arrays *)

Module Numpy.

(** Conversion to the 32-bit signed dtype, with wrap-around. *)
Definition int32 (z : Z) : Z := (z + 2 ^ 31) mod 2 ^ 32 - 2 ^ 31.

Definition in_int32 (z : Z) : Prop := - 2 ^ 31 <= z < 2 ^ 31.

Definition in_int32b (z : Z) : bool := (- 2 ^ 31 <=? z) && (z <? 2 ^ 31).

(** [a.astype(np.int32)] *)
Definition astype_int32 (a : list Z) : list Z := map int32 a.

(** [np.full_like(a, fill)] for an [a] of dtype int32. *)
Definition full_like (a : list Z) (fill : Z) : list Z := map (fun _ => int32 fill) a.

(** [np.hstack(arrays)] refuses an empty sequence of arrays. *)
Definition hstack (arrays : list (list Z)) : result (list Z) :=
  match arrays with
  | [] => Raise (ValueError "need at least one array to concatenate")
  | _ => Ok (concat arrays)
  end.

(** Insertion of an (entry, position) pair before the first pair with a
    larger entry. *)
Fixpoint insert_key (x : Z * nat) (l : list (Z * nat)) : list (Z * nat) :=
  match l with
  | [] => [x]
  | y :: rest => if fst x <=? fst y then x :: l else y :: insert_key x rest
  end.

Definition sort_keys (l : list (Z * nat)) : list (Z * nat) :=
  fold_right insert_key [] l.

(** [np.argsort(a)]: the positions of [a] in an order that sorts its
    entries.  Equal entries keep their relative order here; the array
    library leaves their order open. *)
Definition argsort (a : list Z) : list nat :=
  map snd (sort_keys (combine a (seq 0 (length a)))).

(** [a[positions]]: indexing by an array of positions. *)
Definition take (a : list Z) (positions : list nat) : result (list Z) :=
  list_display
    (fun i => match nth_error a i with
              | Some x => Ok x
              | None => Raise (IndexError "index out of bounds")
              end)
    positions.

End Numpy.

(* ================================================================== *)
(** * Mesh tags, interpolated functions and Dirichlet conditions *)

Module Dolfinx.

(** [meshtags(mesh, dim, entities, values)] *)
Record MeshTags : Type := {
  indices : list Z;
  values : list Z
}.

Definition meshtags (entities vals : list Z) : MeshTags :=
  {| indices := entities; values := vals |}.

(** [tags.find(value)]: the entities tagged [value]. *)
Definition find (tags : MeshTags) (value : Z) : list Z :=
  map fst (filter (fun iv => snd iv =? value) (combine (indices tags) (values tags))).

(** [u_D = Function(V); u_D.interpolate(f)] for a Python function [f] of
    position, known by its notebook name. *)
Record Function : Type := {
  interpolant : string
}.

(** [dirichletbc(value, dofs)] *)
Record DirichletBC : Type := {
  g : Function;
  dof_indices : list Z
}.

Definition dirichletbc (value : Function) (dofs : list Z) : DirichletBC :=
  {| g := value; dof_indices := dofs |}.

End Dolfinx.

(* ================================================================== *)
(** * The facet-tagging cell *)

Module Tagging.

(** The notebook's locators are of the form
    [lambda x: np.isclose(x[axis], c)]. *)
Inductive coordinate_locator : Type :=
| isclose (axis : nat) (c : Z).

Definition boundaries : list (Z * coordinate_locator) :=
  [ (1, isclose 0 0);
    (2, isclose 0 1);
    (3, isclose 1 0);
    (4, isclose 1 1) ].

Section WithMesh.

Variable locator : Type.

(** [locate_entities(mesh, fdim, locator)] for the mesh and facet
    dimension of the notebook: an int32 array of facet indices. *)
Variable locate_entities : locator -> list Z.

(** The body of [for (marker, locator) in boundaries], threading the
    two Python lists of arrays. *)
Fixpoint for_boundary (bs : list (Z * locator))
         (facet_indices facet_markers : list (list Z))
  : list (list Z) * list (list Z) :=
  match bs with
  | [] => (facet_indices, facet_markers)
  | (marker, loc) :: rest =>
      let facets := locate_entities loc in
      for_boundary rest
        (facet_indices ++ [facets])
        (facet_markers ++ [Numpy.full_like facets marker])
  end.

(** The whole cell, down to the call of [meshtags]. *)
Definition facet_tag (bs : list (Z * locator)) : result Dolfinx.MeshTags :=
  let '(facet_indices, facet_markers) := for_boundary bs [] [] in
  (facet_indices <- Numpy.hstack facet_indices ;;
   let facet_indices := Numpy.astype_int32 facet_indices in
   facet_markers <- Numpy.hstack facet_markers ;;
   let facet_markers := Numpy.astype_int32 facet_markers in
   let sorted_facets := Numpy.argsort facet_indices in
   entities <- Numpy.take facet_indices sorted_facets ;;
   vals <- Numpy.take facet_markers sorted_facets ;;
   Ok (Dolfinx.meshtags entities vals))%result.

(** What the loop is meant to record: every located facet next to the
    marker of the boundary that located it. *)
Definition located_pairs (bs : list (Z * locator)) : list (Z * Z) :=
  flat_map (fun b => map (fun facet => (facet, fst b)) (locate_entities (snd b))) bs.

(** The facets located by the boundaries that carry marker [m]. *)
Definition located_by (bs : list (Z * locator)) (m : Z) : list Z :=
  flat_map (fun b => if fst b =? m then locate_entities (snd b) else []) bs.

End WithMesh.

End Tagging.

(* ================================================================== *)
(** * The boundary-condition class and the aggregation cell *)

(** The third constructor argument: a Python function of position (as
    [u_ex]), a form-language expression (as [g]) or a tuple of such
    expressions (as [(r, s)]). *)
Inductive Values : Type :=
| Callable (f : string)
| Expression (e : UFL.expr)
| Tuple (items : list UFL.expr).

(** What [self._bc] holds. *)
Inductive bc_object : Type :=
| OfDirichletBC (d : Dolfinx.DirichletBC)
| OfForm (f : UFL.Form).

Record BoundaryCondition : Type := {
  _type : string;
  _bc : bc_object
}.

(** The two read-only properties of the class. *)
Definition bc (self : BoundaryCondition) : bc_object := _bc self.
Definition type (self : BoundaryCondition) : string := _type self.

(** The arguments of one constructor call. *)
Record specification : Type := {
  kind : string;
  marker : Z;
  values : Values
}.

(** The notebook variables the two cells assign. *)
Record namespace : Type := {
  boundary_conditions : list BoundaryCondition;
  bcs : list bc_object;
  F : UFL.Form
}.

(** A cell runs on the namespace; an exception leaves the namespace as it
    was when it was raised. *)
Definition cell (A : Type) : Type := namespace -> result A * namespace.

Definition ret {A : Type} (a : A) : cell A := fun ns => (Ok a, ns).

Definition bind {A B : Type} (c : cell A) (k : A -> cell B) : cell B :=
  fun ns =>
    match c ns with
    | (Ok a, ns') => k a ns'
    | (Raise e, ns') => (Raise e, ns')
    end.

Definition raise {A : Type} (e : exn) : cell A := fun ns => (Raise e, ns).

Definition evaluate {A : Type} (r : result A) : cell A := fun ns => (r, ns).

Declare Scope cell_scope.
Delimit Scope cell_scope with cell.
Notation "x <- c ;; k" := (bind c (fun x => k))
  (at level 61, c at next level, right associativity) : cell_scope.
Notation "c ;; k" := (bind c (fun _ => k))
  (at level 61, right associativity) : cell_scope.

Definition assign_boundary_conditions (cs : list BoundaryCondition) : cell unit :=
  fun ns => (Ok tt, {| boundary_conditions := cs; bcs := bcs ns; F := F ns |}).

Definition assign_bcs (l : list bc_object) : cell unit :=
  fun ns => (Ok tt, {| boundary_conditions := boundary_conditions ns; bcs := l; F := F ns |}).

Definition assign_F (f : UFL.Form) : cell unit :=
  fun ns => (Ok tt, {| boundary_conditions := boundary_conditions ns; bcs := bcs ns; F := f |}).

Definition read {A : Type} (var : namespace -> A) : cell A := fun ns => (Ok (var ns), ns).

(** [bcs.append(x)] *)
Definition bcs_append (x : bc_object) : cell unit :=
  (l <- read bcs ;; assign_bcs (l ++ [x]))%cell.

(** [F += x]: forms are immutable, so this is [F = F + x]; a right operand
    that is not a form is refused. *)
Definition F_iadd (x : bc_object) : cell unit :=
  (f <- read F ;;
   match x with
   | OfForm t => assign_F (UFL.add f t)
   | OfDirichletBC _ =>
       raise (TypeError "unsupported operand type(s) for +=: 'Form' and 'DirichletBC'")
   end)%cell.

Section Classifier.

(** [facet_tag] as left by the tagging cell. *)
Variable facet_tag : Dolfinx.MeshTags.

(** [locate_dofs_topological(V, fdim, facets)] for the function space and
    facet dimension of the notebook. *)
Variable locate_dofs_topological : list Z -> list Z.

Definition u : UFL.expr := UFL.TrialFunction.
Definition v : UFL.expr := UFL.TestFunction.
Definition ds (m : Z) : UFL.Measure := UFL.restrict UFL.ds_everywhere m.

(** [u_D = Function(V); u_D.interpolate(values)] *)
Definition interpolate (vals : Values) : result Dolfinx.Function :=
  match vals with
  | Callable f => Ok {| Dolfinx.interpolant := f |}
  | _ => Raise (Rejected "interpolate")
  end.

(** An operand of [inner] must be an expression. *)
Definition as_ufl (vals : Values) : result UFL.expr :=
  match vals with
  | Expression e => Ok e
  | _ => Raise (Rejected "inner")
  end.

(** [values[i]] *)
Definition getitem (vals : Values) (i : nat) : result UFL.expr :=
  match vals with
  | Tuple items =>
      match nth_error items i with
      | Some e => Ok e
      | None => Raise (IndexError "tuple index out of range")
      end
  | _ => Raise (Rejected "getitem")
  end.

Definition unknown_message (type : string) : string :=
  String.append "Unknown boundary condition: " type.

(** [BoundaryCondition.__init__(self, type, marker, values)] *)
Definition BoundaryCondition_init (type : string) (marker : Z) (values : Values)
  : result BoundaryCondition :=
  if String.eqb type "Dirichlet" then
    (u_D <- interpolate values ;;
     let facets := Dolfinx.find facet_tag marker in
     let dofs := locate_dofs_topological facets in
     Ok {| _type := type; _bc := OfDirichletBC (Dolfinx.dirichletbc u_D dofs) |})%result
  else if String.eqb type "Neumann" then
    (g <- as_ufl values ;;
     Ok {| _type := type; _bc := OfForm (UFL.integrate (UFL.Inner g v) (ds marker)) |})%result
  else if String.eqb type "Robin" then
    (r <- getitem values 0 ;;
     s <- getitem values 1 ;;
     Ok {| _type := type;
           _bc := OfForm (UFL.integrate (UFL.Mul r (UFL.Inner (UFL.Sub u s) v)) (ds marker)) |})%result
  else
    Raise (TypeError (unknown_message type)).

Definition construct (sp : specification) : result BoundaryCondition :=
  BoundaryCondition_init (kind sp) (marker sp) (values sp).

(** [boundary_conditions = [BoundaryCondition(...), ...]] *)
Definition define_boundary_conditions (specs : list specification) : cell unit :=
  (cs <- evaluate (list_display construct specs) ;;
   assign_boundary_conditions cs)%cell.

(** The body of [for condition in boundary_conditions]. *)
Fixpoint for_condition (conditions : list BoundaryCondition) : cell unit :=
  match conditions with
  | [] => ret tt
  | condition :: rest =>
      ((if String.eqb (type condition) "Dirichlet"
        then bcs_append (bc condition)
        else F_iadd (bc condition)) ;;
       for_condition rest)%cell
  end.

(** The aggregation cell. *)
Definition aggregate : cell unit :=
  (assign_bcs [] ;;
   conditions <- read boundary_conditions ;;
   for_condition conditions)%cell.

(** Both cells in sequence: from constructor arguments and the residual
    held in [F] to the final [bcs] and [F]. *)
Definition classify_and_accumulate (specs : list specification) : cell unit :=
  (define_boundary_conditions specs ;; aggregate)%cell.

(** The boundary terms as the constructor writes them. *)
Definition neumann_term (m : Z) (g : UFL.expr) : UFL.Integral :=
  {| UFL.integrand := UFL.Inner g v; UFL.measure := ds m |}.

Definition robin_term (m : Z) (r s : UFL.expr) : UFL.Integral :=
  {| UFL.integrand := UFL.Mul r (UFL.Inner (UFL.Sub u s) v); UFL.measure := ds m |}.

Definition dirichlet_condition (m : Z) (f : string) : Dolfinx.DirichletBC :=
  Dolfinx.dirichletbc {| Dolfinx.interpolant := f |}
    (locate_dofs_topological (Dolfinx.find facet_tag m)).

End Classifier.

(* ================================================================== *)
(** * The boundary conditions of the notebook *)

Module Notebook.

(** [r = Constant(mesh, 1000)], [s = u_ex(x)] and
    [g = -dot(n, grad(u_ex(x)))] are expressions of the caller. *)
Definition r : UFL.expr := UFL.Coefficient "r".
Definition s : UFL.expr := UFL.Coefficient "s".
Definition g : UFL.expr := UFL.Coefficient "g".

Definition boundary_conditions : list specification :=
  [ {| kind := "Dirichlet"; marker := 1; values := Callable "u_ex" |};
    {| kind := "Dirichlet"; marker := 2; values := Callable "u_ex" |};
    {| kind := "Robin"; marker := 3; values := Tuple [r; s] |};
    {| kind := "Neumann"; marker := 4; values := Expression g |} ].

End Notebook.

(* ================================================================== *)
(** * The value of a form *)

(** Forms are assembled by quadrature: an integral is a weighted sum of the
    values of its integrand at the quadrature points of its measure.  The
    scalars are those of any commutative ring. *)
Section Semantics.

Variable K : Type.
Variables (kO kI : K) (kadd kmul ksub : K -> K -> K) (kopp : K -> K).

Variable point : Type.

(** The value of each caller-supplied coefficient, of the trial function
    and of the test function at a point. *)
Variable coefficient : string -> point -> K.
Variables (u_at v_at : point -> K).

(** Quadrature points and weights of a measure. *)
Variable quadrature : UFL.Measure -> list (point * K).

(** On real scalar fields [inner(a, b)] is the product of [a] and [b]. *)
Fixpoint eval (e : UFL.expr) (x : point) : K :=
  match e with
  | UFL.Coefficient name => coefficient name x
  | UFL.TrialFunction => u_at x
  | UFL.TestFunction => v_at x
  | UFL.Sub a b => ksub (eval a x) (eval b x)
  | UFL.Mul a b => kmul (eval a x) (eval b x)
  | UFL.Inner a b => kmul (eval a x) (eval b x)
  end.

Definition weighted_sum (f : point -> K) (rule : list (point * K)) : K :=
  fold_right (fun pw acc => kadd (kmul (snd pw) (f (fst pw))) acc) kO rule.

Definition integral_value (i : UFL.Integral) : K :=
  weighted_sum (eval (UFL.integrand i)) (quadrature (UFL.measure i)).

Definition form_value (f : UFL.Form) : K :=
  fold_right (fun i acc => kadd (integral_value i) acc) kO f.

End Semantics.

(* ================================================================== *)
(** * Vocabulary of the statements *)

(** The three kinds the constructor accepts. *)
Definition accepted (type : string) : bool :=
  String.eqb type "Dirichlet" || String.eqb type "Neumann" || String.eqb type "Robin".

(** The third argument has the shape its kind consumes. *)
Definition well_shaped (sp : specification) : bool :=
  match values sp with
  | Callable _ => String.eqb (kind sp) "Dirichlet"
  | Expression _ => String.eqb (kind sp) "Neumann"
  | Tuple items => String.eqb (kind sp) "Robin" && (2 <=? length items)%nat
  end.

(** An object the aggregation loop can consume: unless it is of type
    Dirichlet, its [bc] is a form. *)
Definition addable (c : BoundaryCondition) : bool :=
  String.eqb (type c) "Dirichlet" ||
  match bc c with
  | OfForm _ => true
  | OfDirichletBC _ => false
  end.

(** What the loop appends to [bcs] and what it adds to [F]. *)
Definition essential_of (cs : list BoundaryCondition) : list bc_object :=
  map bc (filter (fun c => String.eqb (type c) "Dirichlet") cs).

Definition terms_of (c : BoundaryCondition) : UFL.Form :=
  match bc c with
  | OfForm f => f
  | OfDirichletBC _ => []
  end.

Definition natural_of (cs : list BoundaryCondition) : UFL.Form :=
  flat_map terms_of (filter (fun c => negb (String.eqb (type c) "Dirichlet")) cs).

(** Entry [i] of an array whose length exceeds [i]. *)
Definition entry (a : list Z) (i : nat) : Z := nth i a 0.

(* ================================================================== *)
(** * The boundary part of the variational problem *)

(** The notebook states the problem as [a(u, v) = L(v)].  On the boundary,
    [a] sums [r * u * v] over the Robin parts, and [L] sums [r * s * v]
    over the Robin parts minus [g * v] over the Neumann parts. *)
Section BoundaryForms.

Variable K : Type.
Variables (kO : K) (kadd kmul ksub : K -> K -> K) (kopp : K -> K).
Variable point : Type.
Variable coefficient : string -> point -> K.
Variables (u_at v_at : point -> K).
Variable quadrature : UFL.Measure -> list (point * K).

Definition a_entry (sp : specification) : K :=
  match values sp with
  | Tuple (r :: s :: _) =>
      if String.eqb (kind sp) "Robin"
      then integral_value K kO kadd kmul ksub point coefficient u_at v_at quadrature
             {| UFL.integrand := UFL.Mul r (UFL.Inner u v); UFL.measure := ds (marker sp) |}
      else kO
  | _ => kO
  end.

Definition L_entry (sp : specification) : K :=
  match values sp with
  | Tuple (r :: s :: _) =>
      if String.eqb (kind sp) "Robin"
      then integral_value K kO kadd kmul ksub point coefficient u_at v_at quadrature
             {| UFL.integrand := UFL.Mul r (UFL.Inner s v); UFL.measure := ds (marker sp) |}
      else kO
  | Expression g =>
      if String.eqb (kind sp) "Neumann"
      then kopp (integral_value K kO kadd kmul ksub point coefficient u_at v_at quadrature
                   {| UFL.integrand := UFL.Inner g v; UFL.measure := ds (marker sp) |})
      else kO
  | _ => kO
  end.

Definition a_boundary (specs : list specification) : K :=
  fold_right (fun sp acc => kadd (a_entry sp) acc) kO specs.

Definition L_boundary (specs : list specification) : K :=
  fold_right (fun sp acc => kadd (L_entry sp) acc) kO specs.

End BoundaryForms.

(* ================================================================== *)
(** * A small concrete setting *)

(** The answers of the mesh queries on one small mesh with ten facets. *)
Module Sample.

(** Facets 2 and 7 lie on x = 0, facet 5 on x = 1, facets 9 and 0 on
    y = 0 and facet 4 on y = 1. *)
Definition locate_entities (l : Tagging.coordinate_locator) : list Z :=
  match l with
  | Tagging.isclose 0 0 => [7; 2]
  | Tagging.isclose 0 1 => [5]
  | Tagging.isclose 1 0 => [9; 0]
  | Tagging.isclose 1 1 => [4]
  | _ => []
  end.

Definition facet_tag : Dolfinx.MeshTags :=
  Dolfinx.meshtags [0; 2; 4; 5; 7; 9] [3; 1; 4; 2; 1; 3].

(** Facet [k] joins the degrees of freedom [k] and [k + 1]. *)
Definition locate_dofs_topological (facets : list Z) : list Z :=
  flat_map (fun k => [k; k + 1]) facets.

(** The residual [inner(f, v) * dx] and a namespace left by an earlier run. *)
Definition base : UFL.Form :=
  [ {| UFL.integrand := UFL.Inner (UFL.Coefficient "f") UFL.TestFunction;
       UFL.measure := {| UFL.measure_type := UFL.cell; UFL.subdomain_id := None |} |} ].

Definition stale : namespace :=
  {| boundary_conditions := [ {| _type := "Neumann"; _bc := OfForm base |} ];
     bcs := [ OfForm base ];
     F := base |}.

Definition fresh : namespace :=
  {| boundary_conditions := []; bcs := []; F := base |}.

(** Integer values at integer points: two quadrature points per tagged
    region, one for the whole domain. *)
Definition coefficient (name : string) (x : Z) : Z :=
  if String.eqb name "r" then 1000
  else if String.eqb name "s" then 1 + x * x
  else if String.eqb name "g" then - 4
  else - 6.
Definition u_at (x : Z) : Z := x + 1.
Definition v_at (x : Z) : Z := 2 * x + 1.

Definition quadrature (dm : UFL.Measure) : list (Z * Z) :=
  match UFL.subdomain_id dm with
  | Some m => [ (m, 1); (m + 1, 2) ]
  | None => [ (0, 1) ]
  end.

Definition integral_value : UFL.Integral -> Z :=
  integral_value Z 0 Z.add Z.mul Z.sub Z coefficient u_at v_at quadrature.

Definition form_value : UFL.Form -> Z :=
  form_value Z 0 Z.add Z.mul Z.sub Z coefficient u_at v_at quadrature.

Definition run : list specification -> cell unit :=
  classify_and_accumulate facet_tag locate_dofs_topological.

Definition periodic : specification :=
  {| kind := "Periodic"; marker := 2; values := Expression Notebook.g |}.

End Sample.

(* ================================================================== *)
(** * Properties of results and list displays *)

Lemma list_display_app {A B : Type} (f : A -> result B) (xs ys : list A) :
  list_display f (xs ++ ys) =
  (l1 <- list_display f xs ;; l2 <- list_display f ys ;; Ok (l1 ++ l2))%result.
Proof.
  induction xs as [|x xs IH]; simpl.
  - destruct (list_display f ys); reflexivity.
  - destruct (f x); simpl; [|reflexivity].
    rewrite IH. destruct (list_display f xs); simpl; [|reflexivity].
    destruct (list_display f ys); reflexivity.
Qed.

Lemma list_display_all_ok {A B : Type} (f : A -> result B) (g : A -> B) (xs : list A) :
  (forall x, In x xs -> f x = Ok (g x)) ->
  list_display f xs = Ok (map g xs).
Proof.
  induction xs as [|x xs IH]; intros H; simpl.
  - reflexivity.
  - rewrite (H x (or_introl eq_refl)); simpl.
    rewrite IH by (intros y Hy; apply H; right; exact Hy).
    reflexivity.
Qed.

Lemma list_display_ok_inv {A B : Type} (f : A -> result B) (xs : list A) (ys : list B) :
  list_display f xs = Ok ys -> Forall2 (fun x y => f x = Ok y) xs ys.
Proof.
  revert ys. induction xs as [|x xs IH]; simpl; intros ys H.
  - injection H as <-. constructor.
  - destruct (f x) as [y|e] eqn:Hx; simpl in H; [|discriminate].
    destruct (list_display f xs) as [l|e]; simpl in H; [|discriminate].
    injection H as <-. constructor; auto.
Qed.

Lemma list_display_raises {A B : Type} (f : A -> result B) (xs : list A) (x : A) (e : exn) :
  In x xs -> f x = Raise e -> exists e', list_display f xs = Raise e'.
Proof.
  induction xs as [|y xs IH]; simpl; intros Hin Hx.
  - contradiction.
  - destruct Hin as [->|Hin].
    + rewrite Hx. simpl. eauto.
    + destruct (f y); simpl; [|eauto].
      destruct (IH Hin Hx) as [e' ->]. simpl. eauto.
Qed.

Lemma list_display_first_raise {A B : Type} (f : A -> result B)
      (pre post : list A) (x : A) (e : exn) :
  (forall y, In y pre -> exists b, f y = Ok b) ->
  f x = Raise e ->
  list_display f (pre ++ x :: post) = Raise e.
Proof.
  induction pre as [|y pre IH]; simpl; intros Hpre Hx.
  - rewrite Hx. reflexivity.
  - destruct (Hpre y (or_introl eq_refl)) as [b ->]. simpl.
    rewrite IH; auto.
Qed.

Lemma list_display_permutation {A B : Type} (f : A -> result B) (xs xs' : list A) :
  Permutation xs xs' ->
  forall ys, list_display f xs = Ok ys ->
  exists ys', list_display f xs' = Ok ys' /\ Permutation ys ys'.
Proof.
  induction 1 as [|x l l' Hp IH|x y l|l l' l'' Hp1 IH1 Hp2 IH2]; simpl; intros ys H.
  - injection H as <-. eauto.
  - destruct (f x) as [b|e]; simpl in *; [|discriminate].
    destruct (list_display f l) as [bs|e]; simpl in *; [|discriminate].
    injection H as <-.
    destruct (IH bs eq_refl) as (bs' & -> & Hbs). simpl. eauto.
  - destruct (f y) as [b|e]; simpl in *; [|discriminate].
    destruct (f x) as [a|e]; simpl in *; [|discriminate].
    destruct (list_display f l) as [bs|e]; simpl in *; [|discriminate].
    injection H as <-. eexists; split; [reflexivity|apply perm_swap].
  - destruct (IH1 ys H) as (ys1 & H1 & Hp).
    destruct (IH2 ys1 H1) as (ys2 & H2 & Hp').
    exists ys2; split; [exact H2|eapply perm_trans; eassumption].
Qed.

Lemma Permutation_filter {A : Type} (p : A -> bool) (l l' : list A) :
  Permutation l l' -> Permutation (filter p l) (filter p l').
Proof.
  induction 1 as [|x l l' Hp IH|x y l|l l' l'' Hp1 IH1 Hp2 IH2]; simpl.
  - constructor.
  - destruct (p x); auto.
  - destruct (p x), (p y); auto using perm_swap.
  - eapply perm_trans; eassumption.
Qed.

(* ================================================================== *)
(** * Properties of the constructor and of the aggregation loop *)

Section ClassifierFacts.

Variable facet_tag : Dolfinx.MeshTags.
Variable locate_dofs_topological : list Z -> list Z.

Local Abbreviation init := (BoundaryCondition_init facet_tag locate_dofs_topological).
Local Abbreviation build := (construct facet_tag locate_dofs_topological).
Local Abbreviation run := (classify_and_accumulate facet_tag locate_dofs_topological).

Lemma accepted_false (type : string) :
  type <> "Dirichlet" -> type <> "Neumann" -> type <> "Robin" ->
  accepted type = false.
Proof.
  intros HD HN HR. unfold accepted.
  apply String.eqb_neq in HD, HN, HR. rewrite HD, HN, HR. reflexivity.
Qed.

Lemma accepted_true (type : string) :
  accepted type = true ->
  type = "Dirichlet" \/ type = "Neumann" \/ type = "Robin".
Proof.
  unfold accepted. intros H.
  apply orb_true_iff in H as [H|H]; [apply orb_true_iff in H as [H|H]|];
    apply String.eqb_eq in H; auto.
Qed.

Lemma init_unknown (type : string) (m : Z) (vals : Values) :
  accepted type = false ->
  init type m vals = Raise (TypeError (unknown_message type)).
Proof.
  unfold accepted, BoundaryCondition_init. intros H.
  apply orb_false_iff in H as [H HR]. apply orb_false_iff in H as [HD HN].
  rewrite HD, HN, HR. reflexivity.
Qed.

Lemma init_dirichlet (m : Z) (f : string) :
  init "Dirichlet" m (Callable f) =
  Ok {| _type := "Dirichlet";
        _bc := OfDirichletBC (dirichlet_condition facet_tag locate_dofs_topological m f) |}.
Proof. reflexivity. Qed.

Lemma init_neumann (m : Z) (g : UFL.expr) :
  init "Neumann" m (Expression g) =
  Ok {| _type := "Neumann"; _bc := OfForm [neumann_term m g] |}.
Proof. reflexivity. Qed.

Lemma init_robin (m : Z) (r s : UFL.expr) (rest : list UFL.expr) :
  init "Robin" m (Tuple (r :: s :: rest)) =
  Ok {| _type := "Robin"; _bc := OfForm [robin_term m r s] |}.
Proof. reflexivity. Qed.

(** Every way the constructor can return. *)
Lemma init_ok_inv (type : string) (m : Z) (vals : Values) (c : BoundaryCondition) :
  init type m vals = Ok c ->
  (type = "Dirichlet" /\ exists f,
      vals = Callable f /\
      c = {| _type := type;
             _bc := OfDirichletBC (dirichlet_condition facet_tag locate_dofs_topological m f) |})
  \/ (type = "Neumann" /\ exists g,
      vals = Expression g /\
      c = {| _type := type; _bc := OfForm [neumann_term m g] |})
  \/ (type = "Robin" /\ exists items r s,
      vals = Tuple items /\ nth_error items 0 = Some r /\ nth_error items 1 = Some s /\
      c = {| _type := type; _bc := OfForm [robin_term m r s] |}).
Proof.
  unfold BoundaryCondition_init. intros H.
  destruct (String.eqb type "Dirichlet") eqn:HD.
  { apply String.eqb_eq in HD. left. split; [exact HD|].
    destruct vals as [f|e|items]; simpl in H; try discriminate.
    injection H as <-. exists f. split; reflexivity. }
  destruct (String.eqb type "Neumann") eqn:HN.
  { apply String.eqb_eq in HN. right; left. split; [exact HN|].
    destruct vals as [f|e|items]; simpl in H; try discriminate.
    injection H as <-. exists e. split; reflexivity. }
  destruct (String.eqb type "Robin") eqn:HR; [|discriminate].
  apply String.eqb_eq in HR. right; right. split; [exact HR|].
  destruct vals as [f|e|items]; try discriminate H.
  cbn [getitem] in H.
  destruct (nth_error items 0) as [r|] eqn:H0; cbn [result_bind] in H; [|discriminate].
  destruct (nth_error items 1) as [s|] eqn:H1; cbn [result_bind] in H; [|discriminate].
  injection H as <-. exists items, r, s. auto.
Qed.

Lemma init_ok_addable (type : string) (m : Z) (vals : Values) (c : BoundaryCondition) :
  init type m vals = Ok c -> addable c = true.
Proof.
  intros H. apply init_ok_inv in H.
  destruct H as [[-> (f & _ & ->)]|[[-> (g & _ & ->)]|[-> (items & r & s & _ & _ & _ & ->)]]];
    reflexivity.
Qed.

Lemma construct_well_shaped (sp : specification) :
  well_shaped sp = true -> exists c, build sp = Ok c.
Proof.
  destruct sp as [k m vals]. unfold well_shaped, construct. simpl.
  destruct vals as [f|e|items]; intros H.
  - apply String.eqb_eq in H as ->. rewrite init_dirichlet. eauto.
  - apply String.eqb_eq in H as ->. rewrite init_neumann. eauto.
  - apply andb_true_iff in H as [Hk Hlen].
    apply String.eqb_eq in Hk as ->.
    destruct items as [|r [|s rest]]; try discriminate Hlen.
    rewrite init_robin. eauto.
Qed.

Lemma for_condition_addable (cs : list BoundaryCondition) :
  Forall (fun c => addable c = true) cs ->
  forall ns,
    for_condition cs ns =
    (Ok tt, {| boundary_conditions := boundary_conditions ns;
               bcs := bcs ns ++ essential_of cs;
               F := UFL.add (F ns) (natural_of cs) |}).
Proof.
  unfold UFL.add, essential_of, natural_of.
  induction 1 as [|c cs Hc _ IH]; intros ns.
  - simpl. rewrite !app_nil_r. destruct ns; reflexivity.
  - cbn [for_condition]. unfold bind at 1.
    unfold addable in Hc.
    destruct (String.eqb (type c) "Dirichlet") eqn:HD.
    + cbn. rewrite HD. rewrite IH. cbn. rewrite <- app_assoc. reflexivity.
    + simpl in Hc. destruct (bc c) as [d|t] eqn:Hbc; [discriminate|].
      cbn. rewrite HD. rewrite IH. cbn. unfold terms_of. rewrite Hbc.
      rewrite <- app_assoc. reflexivity.
Qed.

Lemma display_addable (specs : list specification) (cs : list BoundaryCondition) :
  list_display build specs = Ok cs -> Forall (fun c => addable c = true) cs.
Proof.
  intros H. apply list_display_ok_inv in H.
  induction H as [|sp c specs cs Hsp _ IH]; constructor; auto.
  unfold construct in Hsp. eapply init_ok_addable; eassumption.
Qed.

(** The two outcomes of the pair of cells. *)
Lemma run_ok (specs : list specification) (cs : list BoundaryCondition) (ns : namespace) :
  list_display build specs = Ok cs ->
  run specs ns =
  (Ok tt, {| boundary_conditions := cs;
             bcs := essential_of cs;
             F := UFL.add (F ns) (natural_of cs) |}).
Proof.
  intros H.
  unfold classify_and_accumulate, define_boundary_conditions, aggregate.
  unfold bind, evaluate, assign_boundary_conditions, assign_bcs, read.
  rewrite H. rewrite for_condition_addable by (eapply display_addable; eassumption).
  reflexivity.
Qed.

Lemma run_raise (specs : list specification) (e : exn) (ns : namespace) :
  list_display build specs = Raise e ->
  run specs ns = (Raise e, ns).
Proof.
  intros H.
  unfold classify_and_accumulate, define_boundary_conditions.
  unfold bind, evaluate. rewrite H. reflexivity.
Qed.

End ClassifierFacts.

(* ================================================================== *)
(** * Properties of the value of a form *)

Section SemanticsFacts.

Variable K : Type.
Variables (kO kI : K) (kadd kmul ksub : K -> K -> K) (kopp : K -> K).
Hypothesis Kth : ring_theory kO kI kadd kmul ksub kopp eq.
Add Ring Kring : Kth.

Variable point : Type.
Variable coefficient : string -> point -> K.
Variables (u_at v_at : point -> K).
Variable quadrature : UFL.Measure -> list (point * K).

Local Abbreviation wsum := (weighted_sum K kO kadd kmul point).
Local Abbreviation ev := (eval K kmul ksub point coefficient u_at v_at).
Local Abbreviation ival :=
  (integral_value K kO kadd kmul ksub point coefficient u_at v_at quadrature).
Local Abbreviation fval :=
  (form_value K kO kadd kmul ksub point coefficient u_at v_at quadrature).

Lemma weighted_sum_difference (f g h : point -> K) (rule : list (point * K)) :
  (forall x, f x = ksub (g x) (h x)) ->
  wsum f rule = kadd (wsum g rule) (kopp (wsum h rule)).
Proof.
  intros Hf. induction rule as [|[x w] rule IH]; simpl.
  - ring.
  - rewrite IH, Hf. ring.
Qed.

Lemma form_value_app (a b : UFL.Form) :
  fval (UFL.add a b) = kadd (fval a) (fval b).
Proof.
  unfold UFL.add. induction a as [|i a IH]; simpl.
  - ring.
  - rewrite IH. ring.
Qed.

Lemma form_value_permutation (a b : UFL.Form) :
  Permutation a b -> fval a = fval b.
Proof.
  induction 1 as [|i a b _ IH|i j a|a b c _ IH1 _ IH2]; simpl.
  - reflexivity.
  - rewrite IH. reflexivity.
  - ring.
  - congruence.
Qed.

(** The one integral written for a Robin condition has the value of a
    term in [u] and [v] minus a term in [v] alone. *)
Lemma robin_term_splits (m : Z) (r s : UFL.expr) :
  ival (robin_term m r s) =
  kadd (ival {| UFL.integrand := UFL.Mul r (UFL.Inner u v); UFL.measure := ds m |})
       (kopp (ival {| UFL.integrand := UFL.Mul r (UFL.Inner s v); UFL.measure := ds m |})).
Proof.
  unfold integral_value, robin_term. cbn [UFL.integrand UFL.measure].
  apply weighted_sum_difference. intros x. simpl. ring.
Qed.

End SemanticsFacts.

(* ================================================================== *)
(** * Properties of mesh tags *)

Lemma filter_none {A : Type} (p : A -> bool) (l : list A) :
  (forall x, In x l -> p x = false) -> filter p l = [].
Proof.
  induction l as [|x l IH]; intros H; simpl.
  - reflexivity.
  - rewrite (H x (or_introl eq_refl)). apply IH. intros y Hy. apply H. right. exact Hy.
Qed.

(** A value that tags nothing is found nowhere. *)
Lemma find_unknown (tags : Dolfinx.MeshTags) (value : Z) :
  ~ In value (Dolfinx.values tags) -> Dolfinx.find tags value = [].
Proof.
  intros Hout. unfold Dolfinx.find. rewrite filter_none; [reflexivity|].
  intros [i w] Hin. simpl. apply Z.eqb_neq. intros ->.
  apply Hout. eapply in_combine_r. exact Hin.
Qed.

(* ================================================================== *)
(** * The classifier: statements of the specification *)

Section ClassifierClaims.

Variable facet_tag : Dolfinx.MeshTags.
Variable locate_dofs_topological : list Z -> list Z.

Variable K : Type.
Variables (kO kI : K) (kadd kmul ksub : K -> K -> K) (kopp : K -> K).
Hypothesis Kth : ring_theory kO kI kadd kmul ksub kopp eq.

Variable point : Type.
Variable coefficient : string -> point -> K.
Variables (u_at v_at : point -> K).
Variable quadrature : UFL.Measure -> list (point * K).

Local Abbreviation init := (BoundaryCondition_init facet_tag locate_dofs_topological).
Local Abbreviation build := (construct facet_tag locate_dofs_topological).
Local Abbreviation run := (classify_and_accumulate facet_tag locate_dofs_topological).
Local Abbreviation ival :=
  (integral_value K kO kadd kmul ksub point coefficient u_at v_at quadrature).
Local Abbreviation fval :=
  (form_value K kO kadd kmul ksub point coefficient u_at v_at quadrature).

(** C1. A specification whose kind is none of "Dirichlet", "Neumann",
    "Robin" makes its constructor call raise the unknown-kind error, whose
    message ends with the kind string; a run over any list that holds such
    a specification raises and leaves [boundary_conditions], [bcs] and [F]
    as they were; and when everything before it in the list can be
    constructed, the error of the run is that unknown-kind error. *)
Theorem unsupported_kind_fails_without_output
        (specs : list specification) (sp : specification) (ns : namespace) :
  In sp specs ->
  accepted (kind sp) = false ->
  build sp = Raise (TypeError (String.append "Unknown boundary condition: " (kind sp)))
  /\ (exists e, run specs ns = (Raise e, ns))
  /\ (forall pre post,
         specs = pre ++ sp :: post ->
         (forall x, In x pre -> exists c, build x = Ok c) ->
         run specs ns =
         (Raise (TypeError (String.append "Unknown boundary condition: " (kind sp))), ns)).
Proof.
  intros Hin Hkind.
  assert (Hsp : build sp = Raise (TypeError (unknown_message (kind sp))))
    by (apply init_unknown; exact Hkind).
  split; [exact Hsp|]. split.
  - destruct (list_display_raises build specs sp _ Hin Hsp) as [e He].
    exists e. apply run_raise. exact He.
  - intros pre post -> Hpre. apply run_raise.
    apply list_display_first_raise; assumption.
Qed.

(** C2. A list with one Robin entry [(r, s)] on marker [m] gives no
    Dirichlet condition and the residual [F] plus the single integral of
    [r * inner(u - s, v)] over [ds(m)]; the value of the new residual is
    the value of the old one, plus the integral of [r * inner(u, v)], minus
    the integral of [r * inner(s, v)], both over [ds(m)]. *)
Theorem single_robin_adds_one_term (m : Z) (r s : UFL.expr) (ns : namespace) :
  exists ns',
    run [ {| kind := "Robin"; marker := m; values := Tuple [r; s] |} ] ns = (Ok tt, ns')
    /\ F ns' =
       UFL.add (F ns)
         [ {| UFL.integrand := UFL.Mul r (UFL.Inner (UFL.Sub u s) v);
              UFL.measure := {| UFL.measure_type := UFL.exterior_facet;
                                UFL.subdomain_id := Some m |} |} ]
    /\ bcs ns' = []
    /\ fval (F ns') =
       kadd (fval (F ns))
            (kadd (ival {| UFL.integrand := UFL.Mul r (UFL.Inner u v); UFL.measure := ds m |})
                  (kopp (ival {| UFL.integrand := UFL.Mul r (UFL.Inner s v);
                                 UFL.measure := ds m |}))).
Proof.
  eexists. split; [apply run_ok; reflexivity|].
  cbn [F bcs]. repeat split.
  unfold natural_of. cbn.
  rewrite (form_value_app K kO kI kadd kmul ksub kopp Kth).
  f_equal. cbn [form_value fold_right].
  pose proof (robin_term_splits K kO kI kadd kmul ksub kopp Kth
                point coefficient u_at v_at quadrature m r s) as Hsplit.
  unfold robin_term in Hsplit. unfold ds, UFL.restrict in *. cbn in Hsplit |- *.
  rewrite Hsplit.
  rewrite (Radd_comm Kth), (Radd_0_l Kth). reflexivity.
Qed.

(** C3. A list with one Neumann entry [g] on marker [m] gives no Dirichlet
    condition and the residual [F] plus exactly the integral of
    [inner(g, v)] over [ds(m)]. *)
Theorem single_neumann_adds_one_term (m : Z) (g : UFL.expr) (ns : namespace) :
  exists ns',
    run [ {| kind := "Neumann"; marker := m; values := Expression g |} ] ns = (Ok tt, ns')
    /\ F ns' =
       UFL.add (F ns)
         [ {| UFL.integrand := UFL.Inner g UFL.TestFunction;
              UFL.measure := {| UFL.measure_type := UFL.exterior_facet;
                                UFL.subdomain_id := Some m |} |} ]
    /\ bcs ns' = [].
Proof.
  eexists. split; [apply run_ok; reflexivity|].
  split; reflexivity.
Qed.

(** C4. A list of Dirichlet entries only leaves the residual as it was and
    gives one Dirichlet condition per entry, in order: the interpolation
    of the entry's function on the degrees of freedom located on the
    facets tagged with the entry's marker. *)
Theorem dirichlet_only_keeps_residual (entries : list (Z * string)) (ns : namespace) :
  exists ns',
    run (map (fun e => {| kind := "Dirichlet"; marker := fst e; values := Callable (snd e) |})
             entries) ns = (Ok tt, ns')
    /\ F ns' = F ns
    /\ length (bcs ns') = length entries
    /\ bcs ns' =
       map (fun e => OfDirichletBC
                       {| Dolfinx.g := {| Dolfinx.interpolant := snd e |};
                          Dolfinx.dof_indices :=
                            locate_dofs_topological (Dolfinx.find facet_tag (fst e)) |})
           entries.
Proof.
  set (mk := fun e : Z * string =>
               {| _type := "Dirichlet";
                  _bc := OfDirichletBC
                           (dirichlet_condition facet_tag locate_dofs_topological
                                                (fst e) (snd e)) |}).
  assert (Hdisp : list_display build
                    (map (fun e => {| kind := "Dirichlet"; marker := fst e;
                                      values := Callable (snd e) |}) entries)
                  = Ok (map mk entries)).
  { induction entries as [|e entries IH]; [reflexivity|].
    cbn [map list_display]. rewrite IH. reflexivity. }
  eexists. split; [apply run_ok; exact Hdisp|].
  cbn [F bcs].
  assert (Hess : essential_of (map mk entries) =
                 map (fun e => OfDirichletBC
                                 (dirichlet_condition facet_tag locate_dofs_topological
                                                      (fst e) (snd e))) entries).
  { clear Hdisp. unfold essential_of.
    induction entries as [|e entries IH]; [reflexivity|].
    cbn [map filter mk type _type String.eqb Ascii.eqb Bool.eqb bc _bc].
    rewrite <- IH. reflexivity. }
  assert (Hnat : natural_of (map mk entries) = []).
  { clear Hdisp Hess. unfold natural_of.
    induction entries as [|e entries IH]; [reflexivity|].
    cbn [map filter mk type _type String.eqb Ascii.eqb Bool.eqb negb].
    exact IH. }
  rewrite Hess, Hnat. unfold UFL.add. rewrite app_nil_r.
  split; [reflexivity|]. split; [apply length_map|reflexivity].
Qed.

(** C6. Running on a permutation of a list succeeds exactly when running
    on the list does.  When both succeed, the Dirichlet conditions are the
    same up to order (so they form the same set), the integrals of the
    residual are the same up to order, and the residual has the same
    value.  When both raise, neither changes the namespace. *)
Theorem order_independence (specs specs' : list specification) (ns : namespace) :
  Permutation specs specs' ->
  match run specs ns, run specs' ns with
  | (Ok _, ns1), (Ok _, ns2) =>
      Permutation (bcs ns1) (bcs ns2)
      /\ (forall x, In x (bcs ns1) <-> In x (bcs ns2))
      /\ Permutation (F ns1) (F ns2)
      /\ fval (F ns1) = fval (F ns2)
  | (Raise _, ns1), (Raise _, ns2) => ns1 = ns /\ ns2 = ns
  | _, _ => False
  end.
Proof.
  intros Hperm.
  destruct (list_display build specs) as [cs|e] eqn:Hcs.
  - destruct (list_display_permutation build specs specs' Hperm cs Hcs)
      as (cs' & Hcs' & Hp).
    rewrite (run_ok _ _ _ _ ns Hcs), (run_ok _ _ _ _ ns Hcs'). cbn [bcs F].
    assert (Hb : Permutation (essential_of cs) (essential_of cs'))
      by (unfold essential_of; apply Permutation_map, Permutation_filter, Hp).
    assert (Hf : Permutation (UFL.add (F ns) (natural_of cs))
                             (UFL.add (F ns) (natural_of cs'))).
    { unfold UFL.add, natural_of. apply Permutation_app_head.
      apply Permutation_flat_map, Permutation_filter, Hp. }
    split; [exact Hb|]. split.
    + intros x. split; apply Permutation_in; [|apply Permutation_sym]; exact Hb.
    + split; [exact Hf|].
      apply (form_value_permutation K kO kI kadd kmul ksub kopp Kth). exact Hf.
  - destruct (list_display build specs') as [cs'|e'] eqn:Hcs'.
    + destruct (list_display_permutation build specs' specs
                  (Permutation_sym Hperm) cs' Hcs') as (cs & Hcs2 & _).
      congruence.
    + rewrite (run_raise _ _ _ _ ns Hcs), (run_raise _ _ _ _ ns Hcs'). auto.
Qed.

(** C7. When every entry has one of the three kinds and a third argument
    of the shape its kind consumes, the run returns, whatever the markers
    are.  For a marker that tags no facet, the tag lookup is empty, a
    Dirichlet entry yields a condition on the degrees of freedom located
    on no facet, and any other entry yields one integral over [ds] of that
    marker. *)
Theorem unknown_marker_does_not_raise (specs : list specification) (ns : namespace) :
  (forall sp, In sp specs -> well_shaped sp = true) ->
  (exists ns', run specs ns = (Ok tt, ns'))
  /\ (forall sp,
         In sp specs ->
         ~ In (marker sp) (Dolfinx.values facet_tag) ->
         Dolfinx.find facet_tag (marker sp) = []
         /\ exists c,
             build sp = Ok c
             /\ (kind sp = "Dirichlet" ->
                 exists f, bc c = OfDirichletBC
                                    (Dolfinx.dirichletbc f (locate_dofs_topological [])))
             /\ (kind sp <> "Dirichlet" ->
                 exists e, bc c = OfForm [ {| UFL.integrand := e;
                                              UFL.measure := ds (marker sp) |} ])).
Proof.
  intros Hshape. split.
  - assert (Hall : exists cs, list_display build specs = Ok cs).
    { induction specs as [|sp rest IH]; simpl; [eauto|].
      destruct (construct_well_shaped facet_tag locate_dofs_topological sp) as [c ->];
        [apply Hshape; left; reflexivity|].
      destruct IH as [cs ->]; [intros x Hx; apply Hshape; right; exact Hx|].
      simpl. eauto. }
    destruct Hall as [cs Hcs]. eexists. apply run_ok. exact Hcs.
  - intros sp Hin Hout.
    pose proof (find_unknown facet_tag (marker sp) Hout) as Hfind.
    split; [exact Hfind|].
    destruct (construct_well_shaped facet_tag locate_dofs_topological sp (Hshape sp Hin))
      as [c Hc].
    exists c. split; [exact Hc|].
    unfold construct in Hc. apply init_ok_inv in Hc.
    destruct Hc as [[Hk (f & _ & ->)]|[[Hk (g & _ & ->)]|[Hk (items & r & s & _ & _ & _ & ->)]]];
      (split; [intros HD|intros HnD]); try congruence; cbn [bc _bc].
    + unfold dirichlet_condition. rewrite Hfind. eauto.
    + unfold neumann_term. eauto.
    + unfold robin_term. eauto.
Qed.

(** C8. The outcome of a run depends on the list and on the residual held
    in [F] only: from two namespaces with the same [F], both runs raise
    the same exception and change nothing, or both return the same
    namespace.  In that case the list bound to [boundary_conditions] is
    the list as constructed, the integrals of the incoming residual are
    kept in place at the front of the new one, and a second run on the
    namespace left by the first, with [F] set back, returns the same
    namespace again. *)
Theorem pure_transformation (specs : list specification) (ns1 ns2 : namespace) :
  F ns1 = F ns2 ->
  match run specs ns1, run specs ns2 with
  | (Ok _, ns1'), (Ok _, ns2') =>
      ns1' = ns2'
      /\ list_display build specs = Ok (boundary_conditions ns1')
      /\ (exists terms, F ns1' = UFL.add (F ns1) terms)
      /\ run specs {| boundary_conditions := boundary_conditions ns1';
                      bcs := bcs ns1';
                      F := F ns1 |} = (Ok tt, ns1')
  | (Raise e1, ns1'), (Raise e2, ns2') => e1 = e2 /\ ns1' = ns1 /\ ns2' = ns2
  | _, _ => False
  end.
Proof.
  intros HF.
  destruct (list_display build specs) as [cs|e] eqn:Hcs.
  - rewrite (run_ok _ _ _ _ ns1 Hcs), (run_ok _ _ _ _ ns2 Hcs). cbn [boundary_conditions bcs F].
    rewrite <- HF. split; [reflexivity|]. split; [reflexivity|].
    split; [eauto|].
    rewrite (run_ok _ _ _ _ _ Hcs). reflexivity.
  - rewrite (run_raise _ _ _ _ ns1 Hcs), (run_raise _ _ _ _ ns2 Hcs). auto.
Qed.

(** C9. The constructor takes the unknown-kind branch for every string
    other than "Dirichlet", "Neumann" and "Robin", among them "dirichlet"
    and "NEUMANN", and for none of these three.  A constructed object has
    the type string it was given, which is one of the three, and its [bc]
    is the attribute [_bc] set by the branch of that type. *)
Theorem kind_dispatch_is_exact (ty : string) (m : Z) (vals : Values) :
  (ty <> "Dirichlet" -> ty <> "Neumann" -> ty <> "Robin" ->
   init ty m vals = Raise (TypeError (String.append "Unknown boundary condition: " ty)))
  /\ init "dirichlet" m vals = Raise (TypeError "Unknown boundary condition: dirichlet")
  /\ init "NEUMANN" m vals = Raise (TypeError "Unknown boundary condition: NEUMANN")
  /\ (ty = "Dirichlet" \/ ty = "Neumann" \/ ty = "Robin" ->
      init ty m vals <> Raise (TypeError (String.append "Unknown boundary condition: " ty)))
  /\ (forall c,
         init ty m vals = Ok c ->
         type c = ty
         /\ (type c = "Dirichlet" \/ type c = "Neumann" \/ type c = "Robin")
         /\ bc c = _bc c
         /\ ((ty = "Dirichlet" /\ exists f,
                 vals = Callable f /\
                 bc c = OfDirichletBC
                          (Dolfinx.dirichletbc
                             {| Dolfinx.interpolant := f |}
                             (locate_dofs_topological (Dolfinx.find facet_tag m))))
             \/ (ty = "Neumann" /\ exists g,
                    vals = Expression g /\
                    bc c = OfForm (UFL.integrate (UFL.Inner g v) (ds m)))
             \/ (ty = "Robin" /\ exists items r s,
                    vals = Tuple items /\
                    nth_error items 0 = Some r /\ nth_error items 1 = Some s /\
                    bc c = OfForm (UFL.integrate
                                     (UFL.Mul r (UFL.Inner (UFL.Sub u s) v)) (ds m))))).
Proof.
  split; [|split; [|split; [|split]]].
  - intros HD HN HR. apply init_unknown. apply accepted_false; assumption.
  - reflexivity.
  - reflexivity.
  - intros [-> | [-> | ->]]; destruct vals as [f|e|[|r [|s rest]]]; discriminate.
  - intros c Hc. apply init_ok_inv in Hc.
    destruct Hc as [[Hk (f & Hv & ->)]|[[Hk (g & Hv & ->)]|[Hk (items & r & s & Hv & H0 & H1 & ->)]]];
      cbn [type _type bc _bc]; (split; [reflexivity|]); (split; [auto|]);
        (split; [reflexivity|]).
    + left. split; [exact Hk|]. exists f. split; [exact Hv|reflexivity].
    + right; left. split; [exact Hk|]. exists g. split; [exact Hv|reflexivity].
    + right; right. split; [exact Hk|]. exists items, r, s. auto.
Qed.

End ClassifierClaims.

(* ================================================================== *)
(** * Properties of the array operations *)

Module NumpyFacts.

Import Numpy.

Lemma int32_in_range (z : Z) : in_int32 z -> int32 z = z.
Proof.
  unfold in_int32, int32. intros H.
  rewrite Z.mod_small by lia. lia.
Qed.

Lemma astype_int32_in_range (a : list Z) :
  Forall in_int32 a -> astype_int32 a = a.
Proof.
  unfold astype_int32. induction 1 as [|z a Hz _ IH]; simpl.
  - reflexivity.
  - rewrite IH, int32_in_range by exact Hz. reflexivity.
Qed.

Lemma insert_key_permutation (x : Z * nat) (l : list (Z * nat)) :
  Permutation (insert_key x l) (x :: l).
Proof.
  induction l as [|y l IH]; simpl.
  - apply Permutation_refl.
  - destruct (fst x <=? fst y).
    + apply Permutation_refl.
    + eapply perm_trans; [apply perm_skip, IH|apply perm_swap].
Qed.

Lemma sort_keys_permutation (l : list (Z * nat)) :
  Permutation (sort_keys l) l.
Proof.
  unfold sort_keys. induction l as [|x l IH]; simpl.
  - constructor.
  - eapply perm_trans; [apply insert_key_permutation|apply perm_skip, IH].
Qed.

Lemma insert_key_head (k : Z) (x : Z * nat) (l : list (Z * nat)) :
  k <= fst x -> HdRel Z.le k (map fst l) -> HdRel Z.le k (map fst (insert_key x l)).
Proof.
  intros Hx Hl. destruct l as [|y l]; simpl.
  - constructor. exact Hx.
  - destruct (fst x <=? fst y); simpl; constructor.
    + exact Hx.
    + inversion Hl; assumption.
Qed.

Lemma insert_key_sorted (x : Z * nat) (l : list (Z * nat)) :
  Sorted Z.le (map fst l) -> Sorted Z.le (map fst (insert_key x l)).
Proof.
  induction l as [|y l IH]; simpl; intros Hs.
  - constructor; constructor.
  - destruct (fst x <=? fst y) eqn:Hle; simpl.
    + constructor; [exact Hs|]. constructor. apply Z.leb_le. exact Hle.
    + inversion Hs as [|? ? Hs' Hhd]; subst.
      constructor; [apply IH; exact Hs'|].
      apply insert_key_head; [|exact Hhd].
      apply Z.leb_gt in Hle. lia.
Qed.

Lemma sort_keys_sorted (l : list (Z * nat)) :
  Sorted Z.le (map fst (sort_keys l)).
Proof.
  unfold sort_keys. induction l as [|x l IH]; simpl.
  - constructor.
  - apply insert_key_sorted. exact IH.
Qed.

Lemma map_snd_combine {A B : Type} (a : list A) (b : list B) :
  length a = length b -> map snd (combine a b) = b.
Proof.
  revert b. induction a as [|x a IH]; intros [|y b] H; simpl in *; try discriminate.
  - reflexivity.
  - f_equal. apply IH. lia.
Qed.

Lemma argsort_permutation (a : list Z) :
  Permutation (argsort a) (seq 0 (length a)).
Proof.
  unfold argsort.
  eapply perm_trans; [apply Permutation_map, sort_keys_permutation|].
  rewrite map_snd_combine by (rewrite length_seq; reflexivity).
  apply Permutation_refl.
Qed.

Lemma argsort_in_bounds (a : list Z) (i : nat) :
  In i (argsort a) -> (i < length a)%nat.
Proof.
  intros Hin.
  apply (Permutation_in _ (argsort_permutation a)) in Hin.
  apply in_seq in Hin. lia.
Qed.

Lemma argsort_length (a : list Z) : length (argsort a) = length a.
Proof.
  rewrite (Permutation_length (argsort_permutation a)). apply length_seq.
Qed.

Lemma take_in_bounds (a : list Z) (positions : list nat) :
  (forall i, In i positions -> (i < length a)%nat) ->
  take a positions = Ok (map (entry a) positions).
Proof.
  intros Hb. unfold take. apply list_display_all_ok.
  intros i Hi. unfold entry.
  rewrite (nth_error_nth' a 0 (Hb i Hi)). reflexivity.
Qed.

Lemma in_combine_seq (a : list Z) (start : nat) (k : Z) (i : nat) :
  In (k, i) (combine a (seq start (length a))) ->
  (start <= i)%nat /\ nth_error a (i - start) = Some k.
Proof.
  revert start. induction a as [|x a IH]; simpl; intros start Hin.
  - contradiction.
  - destruct Hin as [Heq|Hin].
    + injection Heq as -> ->. rewrite Nat.sub_diag. split; [lia|reflexivity].
    + apply IH in Hin as [Hle Hnth]. split; [lia|].
      replace (i - start)%nat with (S (i - S start)) by lia. exact Hnth.
Qed.

(** Indexing an array by its [argsort] lists its entries in sorted order. *)
Lemma take_argsort (a : list Z) :
  take a (argsort a) = Ok (map fst (sort_keys (combine a (seq 0 (length a))))).
Proof.
  rewrite take_in_bounds by apply argsort_in_bounds.
  f_equal. unfold argsort. rewrite map_map.
  apply map_ext_in. intros [k i] Hin. simpl.
  apply (Permutation_in _ (sort_keys_permutation _)) in Hin.
  apply in_combine_seq in Hin as [_ Hnth].
  rewrite Nat.sub_0_r in Hnth. unfold entry.
  apply nth_error_nth. exact Hnth.
Qed.

Lemma map_nth_seq {A : Type} (l : list A) (d : A) :
  map (fun i => nth i l d) (seq 0 (length l)) = l.
Proof.
  induction l as [|x l IH]; simpl.
  - reflexivity.
  - f_equal. rewrite <- seq_shift, map_map. exact IH.
Qed.

(** Indexing two arrays of one length by one permutation of their
    positions keeps their entries paired. *)
Lemma paired_take (a b : list Z) (positions : list nat) :
  length a = length b ->
  Permutation positions (seq 0 (length a)) ->
  Permutation (combine (map (entry a) positions) (map (entry b) positions))
              (combine a b).
Proof.
  intros Hlen Hperm.
  assert (Hzip : combine (map (entry a) positions) (map (entry b) positions) =
                 map (fun i => nth i (combine a b) (0, 0)) positions).
  { clear Hperm. induction positions as [|i ps IH]; simpl; [reflexivity|].
    rewrite IH. f_equal. unfold entry. symmetry. apply combine_nth. exact Hlen. }
  rewrite Hzip.
  eapply perm_trans; [apply Permutation_map, Hperm|].
  replace (length a) with (length (combine a b))
    by (rewrite length_combine; lia).
  rewrite map_nth_seq. apply Permutation_refl.
Qed.

End NumpyFacts.

(* ================================================================== *)
(** * The facet-tagging cell: statements *)

Lemma combine_fst_snd {A B : Type} (l : list (A * B)) :
  combine (map fst l) (map snd l) = l.
Proof.
  induction l as [|[a b] l IH]; simpl; [reflexivity|]. rewrite IH. reflexivity.
Qed.

Section TaggingFacts.

Variable locator : Type.
Variable locate_entities : locator -> list Z.

Local Abbreviation pairs := (Tagging.located_pairs locator locate_entities).
Local Abbreviation tag := (Tagging.facet_tag locator locate_entities).

Lemma for_boundary_unfolded (bs : list (Z * locator)) (fi fm : list (list Z)) :
  Tagging.for_boundary locator locate_entities bs fi fm =
  (fi ++ map (fun b => locate_entities (snd b)) bs,
   fm ++ map (fun b => Numpy.full_like (locate_entities (snd b)) (fst b)) bs).
Proof.
  revert fi fm. induction bs as [|[m loc] bs IH]; intros fi fm; simpl.
  - rewrite !app_nil_r. reflexivity.
  - rewrite IH, <- !app_assoc. reflexivity.
Qed.

Lemma stacked_indices (bs : list (Z * locator)) :
  concat (map (fun b => locate_entities (snd b)) bs) = map fst (pairs bs).
Proof.
  unfold Tagging.located_pairs.
  induction bs as [|b bs IH]; simpl; [reflexivity|].
  rewrite map_app, map_map, IH. simpl. rewrite map_id. reflexivity.
Qed.

Lemma stacked_markers (bs : list (Z * locator)) :
  concat (map (fun b => Numpy.full_like (locate_entities (snd b)) (fst b)) bs) =
  map (fun p => Numpy.int32 (snd p)) (pairs bs).
Proof.
  unfold Tagging.located_pairs, Numpy.full_like.
  induction bs as [|b bs IH]; simpl; [reflexivity|].
  rewrite map_app, map_map, IH. reflexivity.
Qed.

Lemma hstack_nonempty {A : Type} (f : A -> list Z) (l : list A) :
  l <> [] -> Numpy.hstack (map f l) = Ok (concat (map f l)).
Proof.
  destruct l as [|x l]; [congruence|reflexivity].
Qed.

Lemma pairs_in_range (bs : list (Z * locator)) :
  forallb (fun b => Numpy.in_int32b (fst b)) bs = true ->
  forallb (fun b => forallb Numpy.in_int32b (locate_entities (snd b))) bs = true ->
  Forall (fun p => Numpy.in_int32 (fst p) /\ Numpy.in_int32 (snd p)) (pairs bs).
Proof.
  intros Hm Hf. rewrite forallb_forall in Hm, Hf.
  apply Forall_forall. intros [facet m] Hin.
  unfold Tagging.located_pairs in Hin.
  apply in_flat_map in Hin as (b & Hb & Hin).
  apply in_map_iff in Hin as (x & Heq & Hx). injection Heq as <- <-.
  specialize (Hm b Hb). specialize (Hf b Hb).
  rewrite forallb_forall in Hf. specialize (Hf x Hx).
  unfold Numpy.in_int32b in *. unfold Numpy.in_int32. simpl.
  apply andb_true_iff in Hm as [Hm1 Hm2]. apply andb_true_iff in Hf as [Hf1 Hf2].
  apply Z.leb_le in Hm1, Hf1. apply Z.ltb_lt in Hm2, Hf2. lia.
Qed.

(** The tagging cell returns for every non-empty boundary list. *)
Lemma facet_tag_returns (bs : list (Z * locator)) :
  bs <> [] -> exists tags, tag bs = Ok tags.
Proof.
  intros Hne. unfold Tagging.facet_tag.
  rewrite for_boundary_unfolded. cbn [app].
  rewrite !hstack_nonempty by exact Hne. cbn [result_bind].
  rewrite stacked_indices, stacked_markers.
  set (idx := Numpy.astype_int32 _).
  set (mk := Numpy.astype_int32 _).
  assert (Hlen : length mk = length idx)
    by (unfold mk, idx, Numpy.astype_int32; rewrite !length_map; reflexivity).
  rewrite (NumpyFacts.take_in_bounds idx) by apply NumpyFacts.argsort_in_bounds.
  rewrite (NumpyFacts.take_in_bounds mk)
    by (intros i Hi; rewrite Hlen; apply NumpyFacts.argsort_in_bounds; exact Hi).
  cbn [result_bind]. eauto.
Qed.

(** With 32-bit markers and facets the casts change nothing, and the cell
    hands [meshtags] the stacked arrays indexed by the [argsort] of the
    facets. *)
Lemma facet_tag_in_range (bs : list (Z * locator)) :
  bs <> [] ->
  forallb (fun b => Numpy.in_int32b (fst b)) bs = true ->
  forallb (fun b => forallb Numpy.in_int32b (locate_entities (snd b))) bs = true ->
  Numpy.take (map fst (pairs bs)) (Numpy.argsort (map fst (pairs bs))) =
  Ok (map (entry (map fst (pairs bs))) (Numpy.argsort (map fst (pairs bs))))
  /\ Numpy.take (map snd (pairs bs)) (Numpy.argsort (map fst (pairs bs))) =
     Ok (map (entry (map snd (pairs bs))) (Numpy.argsort (map fst (pairs bs))))
  /\ tag bs =
     Ok (Dolfinx.meshtags
           (map (entry (map fst (pairs bs))) (Numpy.argsort (map fst (pairs bs))))
           (map (entry (map snd (pairs bs))) (Numpy.argsort (map fst (pairs bs))))).
Proof.
  intros Hne Hm Hf.
  pose proof (pairs_in_range bs Hm Hf) as Hrange.
  set (idx := map fst (pairs bs)).
  set (mk := map snd (pairs bs)).
  assert (Hidx : Numpy.astype_int32 (concat (map (fun b => locate_entities (snd b)) bs)) = idx).
  { rewrite stacked_indices. apply NumpyFacts.astype_int32_in_range.
    apply Forall_map. eapply Forall_impl; [|exact Hrange]. simpl. tauto. }
  assert (Hmk : Numpy.astype_int32
                  (concat (map (fun b => Numpy.full_like (locate_entities (snd b)) (fst b)) bs))
                = mk).
  { rewrite stacked_markers. unfold Numpy.astype_int32. rewrite map_map.
    unfold mk. apply map_ext_in. intros p Hp.
    rewrite Forall_forall in Hrange. destruct (Hrange p Hp) as [_ Hs].
    rewrite (NumpyFacts.int32_in_range (snd p) Hs).
    apply NumpyFacts.int32_in_range. exact Hs. }
  assert (Hlen : length mk = length idx) by (unfold mk, idx; rewrite !length_map; reflexivity).
  assert (Htake_idx : Numpy.take idx (Numpy.argsort idx) =
                      Ok (map (entry idx) (Numpy.argsort idx)))
    by (apply NumpyFacts.take_in_bounds, NumpyFacts.argsort_in_bounds).
  assert (Htake_mk : Numpy.take mk (Numpy.argsort idx) =
                     Ok (map (entry mk) (Numpy.argsort idx))).
  { apply NumpyFacts.take_in_bounds. intros i Hi. rewrite Hlen.
    apply NumpyFacts.argsort_in_bounds. exact Hi. }
  split; [exact Htake_idx|]. split; [exact Htake_mk|].
  unfold Tagging.facet_tag. rewrite for_boundary_unfolded. cbn [app].
  rewrite !hstack_nonempty by exact Hne. cbn [result_bind].
  rewrite Hidx, Hmk, Htake_idx, Htake_mk. reflexivity.
Qed.

(** The two arrays handed to [meshtags] hold the pairs of the loop. *)
Lemma tagged_pairs (bs : list (Z * locator)) :
  Permutation
    (combine (map (entry (map fst (pairs bs))) (Numpy.argsort (map fst (pairs bs))))
             (map (entry (map snd (pairs bs))) (Numpy.argsort (map fst (pairs bs)))))
    (pairs bs).
Proof.
  eapply perm_trans.
  - apply (NumpyFacts.paired_take (map fst (pairs bs)) (map snd (pairs bs))).
    + rewrite !length_map. reflexivity.
    + apply NumpyFacts.argsort_permutation.
  - rewrite combine_fst_snd. apply Permutation_refl.
Qed.

Lemma located_by_pairs (bs : list (Z * locator)) (m : Z) :
  map fst (filter (fun p => snd p =? m) (pairs bs)) =
  Tagging.located_by locator locate_entities bs m.
Proof.
  unfold Tagging.located_pairs, Tagging.located_by.
  induction bs as [|b bs IH]; simpl; [reflexivity|].
  rewrite filter_app, map_app, IH. f_equal.
  destruct (fst b =? m) eqn:Hb.
  - induction (locate_entities (snd b)) as [|x l IHl]; simpl; [reflexivity|].
    rewrite Hb. simpl. rewrite IHl. reflexivity.
  - induction (locate_entities (snd b)) as [|x l IHl]; simpl; [reflexivity|].
    rewrite Hb. exact IHl.
Qed.

(** Looking a marker up in tags that hold the pairs of the loop finds the
    facets located by the boundaries with that marker. *)
Lemma find_located (tags : Dolfinx.MeshTags) (bs : list (Z * locator)) (m : Z) :
  Permutation (combine (Dolfinx.indices tags) (Dolfinx.values tags)) (pairs bs) ->
  Permutation (Dolfinx.find tags m) (Tagging.located_by locator locate_entities bs m).
Proof.
  intros Hp. unfold Dolfinx.find. rewrite <- located_by_pairs.
  apply Permutation_map, Permutation_filter, Hp.
Qed.

(** C10. For a non-empty boundary list whose markers and located facets
    are 32-bit values, the cell reaches [meshtags] with two arrays of
    equal length; entry by entry they pair a facet with the marker of the
    boundary whose locator found it, every located facet appearing once
    per boundary that found it, so that looking a marker up finds the
    facets its boundaries located; both arrays are the stacked arrays
    indexed by one and the same permutation of their positions; and the
    facet array is in non-decreasing order. *)
Theorem facet_tagging_pairs_and_sorts (bs : list (Z * locator)) :
  bs <> [] ->
  forallb (fun b => Numpy.in_int32b (fst b)) bs = true ->
  forallb (fun b => forallb Numpy.in_int32b (locate_entities (snd b))) bs = true ->
  exists (tags : Dolfinx.MeshTags) (sorted_facets : list nat),
    tag bs = Ok tags
    /\ length (Dolfinx.indices tags) = length (Dolfinx.values tags)
    /\ Permutation (combine (Dolfinx.indices tags) (Dolfinx.values tags)) (pairs bs)
    /\ (forall m, Permutation (Dolfinx.find tags m)
                              (Tagging.located_by locator locate_entities bs m))
    /\ Permutation sorted_facets (seq 0 (length (pairs bs)))
    /\ Numpy.take (map fst (pairs bs)) sorted_facets = Ok (Dolfinx.indices tags)
    /\ Numpy.take (map snd (pairs bs)) sorted_facets = Ok (Dolfinx.values tags)
    /\ Sorted Z.le (Dolfinx.indices tags).
Proof.
  intros Hne Hm Hf.
  destruct (facet_tag_in_range bs Hne Hm Hf) as (Htake_idx & Htake_mk & Htag).
  set (idx := map fst (pairs bs)) in *.
  set (mk := map snd (pairs bs)) in *.
  exists (Dolfinx.meshtags (map (entry idx) (Numpy.argsort idx))
                           (map (entry mk) (Numpy.argsort idx))),
         (Numpy.argsort idx).
  split; [exact Htag|].
  cbn [Dolfinx.meshtags Dolfinx.indices Dolfinx.values].
  split; [rewrite !length_map; reflexivity|].
  split; [apply tagged_pairs|].
  split; [intros m; apply find_located; apply tagged_pairs|].
  split.
  { replace (length (pairs bs)) with (length idx) by (unfold idx; apply length_map).
    apply NumpyFacts.argsort_permutation. }
  split; [exact Htake_idx|]. split; [exact Htake_mk|].
  assert (Hsorted : map (entry idx) (Numpy.argsort idx) =
                    map fst (Numpy.sort_keys (combine idx (seq 0 (length idx))))).
  { pose proof (NumpyFacts.take_argsort idx) as H. rewrite Htake_idx in H.
    injection H as H. exact H. }
  rewrite Hsorted. apply NumpyFacts.sort_keys_sorted.
Qed.

End TaggingFacts.


(* ================================================================== *)
(** * The notebook from tagging to aggregation *)

Section EndToEnd.

Variable locate_entities : Tagging.coordinate_locator -> list Z.
Variable locate_dofs_topological : list Z -> list Z.

Variable K : Type.
Variables (kO kI : K) (kadd kmul ksub : K -> K -> K) (kopp : K -> K).
Hypothesis Kth : ring_theory kO kI kadd kmul ksub kopp eq.

Variable point : Type.
Variable coefficient : string -> point -> K.
Variables (u_at v_at : point -> K).
Variable quadrature : UFL.Measure -> list (point * K).

Local Abbreviation ival :=
  (integral_value K kO kadd kmul ksub point coefficient u_at v_at quadrature).
Local Abbreviation fval :=
  (form_value K kO kadd kmul ksub point coefficient u_at v_at quadrature).

(** C5. With the four boundaries of the notebook tagged 1 to 4 and the
    notebook's list of two Dirichlet entries, one Robin entry and one
    Neumann entry, the tagging cell returns a [facet_tag] and the run
    returns exactly two Dirichlet conditions (on markers 1 and 2) and the
    residual [F] plus exactly two integrals: the Robin integral over
    [ds(3)], whose value is a term in [u] and [v] minus a term in [v]
    alone, and the Neumann integral over [ds(4)].  When the located facets
    are 32-bit values, markers 1, 2, 3 and 4 tag the facets on x = 0,
    x = 1, y = 0 and y = 1. *)
Theorem end_to_end_scenario (ns : namespace) :
  exists (facet_tag : Dolfinx.MeshTags) (ns' : namespace),
    Tagging.facet_tag _ locate_entities Tagging.boundaries = Ok facet_tag
    /\ classify_and_accumulate facet_tag locate_dofs_topological
         Notebook.boundary_conditions ns = (Ok tt, ns')
    /\ length (bcs ns') = 2%nat
    /\ bcs ns' =
       [ OfDirichletBC (Dolfinx.dirichletbc
                          {| Dolfinx.interpolant := "u_ex" |}
                          (locate_dofs_topological (Dolfinx.find facet_tag 1)));
         OfDirichletBC (Dolfinx.dirichletbc
                          {| Dolfinx.interpolant := "u_ex" |}
                          (locate_dofs_topological (Dolfinx.find facet_tag 2))) ]
    /\ F ns' =
       UFL.add (F ns)
         [ {| UFL.integrand := UFL.Mul Notebook.r (UFL.Inner (UFL.Sub u Notebook.s) v);
              UFL.measure := ds 3 |};
           {| UFL.integrand := UFL.Inner Notebook.g v; UFL.measure := ds 4 |} ]
    /\ fval (F ns') =
       kadd (fval (F ns))
            (kadd (kadd (ival {| UFL.integrand := UFL.Mul Notebook.r (UFL.Inner u v);
                                 UFL.measure := ds 3 |})
                        (kopp (ival {| UFL.integrand := UFL.Mul Notebook.r (UFL.Inner Notebook.s v);
                                       UFL.measure := ds 3 |})))
                  (ival {| UFL.integrand := UFL.Inner Notebook.g v; UFL.measure := ds 4 |}))
    /\ (forallb (fun b => forallb Numpy.in_int32b (locate_entities (snd b)))
                Tagging.boundaries = true ->
        Permutation (Dolfinx.find facet_tag 1) (locate_entities (Tagging.isclose 0 0))
        /\ Permutation (Dolfinx.find facet_tag 2) (locate_entities (Tagging.isclose 0 1))
        /\ Permutation (Dolfinx.find facet_tag 3) (locate_entities (Tagging.isclose 1 0))
        /\ Permutation (Dolfinx.find facet_tag 4) (locate_entities (Tagging.isclose 1 1))).
Proof.
  destruct (facet_tag_returns _ locate_entities Tagging.boundaries) as [facet_tag Htag];
    [discriminate|].
  exists facet_tag. eexists.
  split; [exact Htag|].
  split; [apply run_ok; reflexivity|].
  cbn [bcs F].
  split; [reflexivity|]. split; [reflexivity|]. split; [reflexivity|].
  split.
  - rewrite (form_value_app K kO kI kadd kmul ksub kopp Kth). f_equal.
    unfold natural_of. cbn.
    pose proof (robin_term_splits K kO kI kadd kmul ksub kopp Kth
                  point coefficient u_at v_at quadrature 3 Notebook.r Notebook.s) as Hsplit.
    unfold robin_term in Hsplit. cbn in Hsplit |- *. rewrite Hsplit.
    rewrite (Radd_comm Kth (ival _) kO), (Radd_0_l Kth). reflexivity.
  - intros Hf.
    destruct (facet_tag_in_range _ locate_entities Tagging.boundaries)
      as (_ & _ & Htag'); [discriminate|reflexivity|exact Hf|].
    rewrite Htag in Htag'. injection Htag' as ->.
    assert (Hfind : forall m,
               Permutation
                 (Dolfinx.find
                    (Dolfinx.meshtags
                       (map (entry (map fst (Tagging.located_pairs _ locate_entities
                                               Tagging.boundaries)))
                            (Numpy.argsort (map fst (Tagging.located_pairs _ locate_entities
                                                       Tagging.boundaries))))
                       (map (entry (map snd (Tagging.located_pairs _ locate_entities
                                               Tagging.boundaries)))
                            (Numpy.argsort (map fst (Tagging.located_pairs _ locate_entities
                                                       Tagging.boundaries))))) m)
                 (Tagging.located_by _ locate_entities Tagging.boundaries m))
      by (intros m; apply find_located; apply tagged_pairs).
    repeat split.
    + rewrite (Hfind 1). unfold Tagging.located_by. cbn. rewrite app_nil_r. reflexivity.
    + rewrite (Hfind 2). unfold Tagging.located_by. cbn. rewrite app_nil_r. reflexivity.
    + rewrite (Hfind 3). unfold Tagging.located_by. cbn. rewrite app_nil_r. reflexivity.
    + rewrite (Hfind 4). unfold Tagging.located_by. cbn. rewrite app_nil_r. reflexivity.
Qed.

End EndToEnd.


(* ================================================================== *)
(** * The statements at work on the concrete setting *)

Example sample_facet_tag :
  Tagging.facet_tag _ Sample.locate_entities Tagging.boundaries = Ok Sample.facet_tag.
Proof. reflexivity. Qed.

Example sample_find_1 : Dolfinx.find Sample.facet_tag 1 = [2; 7].
Proof. reflexivity. Qed.

Example sample_run :
  Sample.run Notebook.boundary_conditions Sample.stale =
  (Ok tt,
   {| boundary_conditions :=
        [ {| _type := "Dirichlet";
             _bc := OfDirichletBC (Dolfinx.dirichletbc {| Dolfinx.interpolant := "u_ex" |}
                                                       [2; 3; 7; 8]) |};
          {| _type := "Dirichlet";
             _bc := OfDirichletBC (Dolfinx.dirichletbc {| Dolfinx.interpolant := "u_ex" |}
                                                       [5; 6]) |};
          {| _type := "Robin";
             _bc := OfForm [ robin_term 3 Notebook.r Notebook.s ] |};
          {| _type := "Neumann";
             _bc := OfForm [ neumann_term 4 Notebook.g ] |} ];
      bcs :=
        [ OfDirichletBC (Dolfinx.dirichletbc {| Dolfinx.interpolant := "u_ex" |} [2; 3; 7; 8]);
          OfDirichletBC (Dolfinx.dirichletbc {| Dolfinx.interpolant := "u_ex" |} [5; 6]) ];
      F := Sample.base ++ [ robin_term 3 Notebook.r Notebook.s; neumann_term 4 Notebook.g ] |}).
Proof. reflexivity. Qed.

Example sample_values :
  Sample.form_value Sample.base = - 6
  /\ Sample.integral_value (robin_term 3 Notebook.r Notebook.s) = - 258000
  /\ Sample.integral_value (neumann_term 4 Notebook.g) = - 124.
Proof. repeat split. Qed.

Example sample_short_tuple :
  Sample.run [ {| kind := "Robin"; marker := 3; values := Tuple [Notebook.r] |} ] Sample.stale =
  (Raise (IndexError "tuple index out of range"), Sample.stale).
Proof. reflexivity. Qed.

Lemma unsupported_kind_witness :
  construct Sample.facet_tag Sample.locate_dofs_topological Sample.periodic =
  Raise (TypeError "Unknown boundary condition: Periodic")
  /\ Sample.run [ {| kind := "Dirichlet"; marker := 1; values := Callable "u_ex" |};
                  Sample.periodic ] Sample.stale =
     (Raise (TypeError "Unknown boundary condition: Periodic"), Sample.stale).
Proof.
  destruct (unsupported_kind_fails_without_output
              Sample.facet_tag Sample.locate_dofs_topological
              [ {| kind := "Dirichlet"; marker := 1; values := Callable "u_ex" |};
                Sample.periodic ]
              Sample.periodic Sample.stale
              (or_intror (or_introl eq_refl)) eq_refl) as (Hinit & _ & Hrun).
  split; [exact Hinit|].
  apply (Hrun [ {| kind := "Dirichlet"; marker := 1; values := Callable "u_ex" |} ] []).
  - reflexivity.
  - intros x [<-|[]]. eexists. reflexivity.
Defined.

Lemma single_robin_witness :
  exists ns',
    Sample.run [ {| kind := "Robin"; marker := 3; values := Tuple [Notebook.r; Notebook.s] |} ]
               Sample.stale = (Ok tt, ns')
    /\ F ns' =
       UFL.add Sample.base
         [ {| UFL.integrand := UFL.Mul Notebook.r (UFL.Inner (UFL.Sub u Notebook.s) v);
              UFL.measure := {| UFL.measure_type := UFL.exterior_facet;
                                UFL.subdomain_id := Some 3 |} |} ]
    /\ bcs ns' = []
    /\ Sample.form_value (F ns') =
       Sample.form_value Sample.base +
       (Sample.integral_value
          {| UFL.integrand := UFL.Mul Notebook.r (UFL.Inner u v); UFL.measure := ds 3 |} +
        - Sample.integral_value
            {| UFL.integrand := UFL.Mul Notebook.r (UFL.Inner Notebook.s v);
               UFL.measure := ds 3 |}).
Proof.
  exact (single_robin_adds_one_term
           Sample.facet_tag Sample.locate_dofs_topological
           Z 0 1 Z.add Z.mul Z.sub Z.opp InitialRing.Zth
           Z Sample.coefficient Sample.u_at Sample.v_at Sample.quadrature
           3 Notebook.r Notebook.s Sample.stale).
Defined.

Lemma end_to_end_witness :
  exists (facet_tag : Dolfinx.MeshTags) (ns' : namespace),
    Tagging.facet_tag _ Sample.locate_entities Tagging.boundaries = Ok facet_tag
    /\ classify_and_accumulate facet_tag Sample.locate_dofs_topological
         Notebook.boundary_conditions Sample.stale = (Ok tt, ns')
    /\ length (bcs ns') = 2%nat
    /\ bcs ns' =
       [ OfDirichletBC (Dolfinx.dirichletbc
                          {| Dolfinx.interpolant := "u_ex" |}
                          (Sample.locate_dofs_topological (Dolfinx.find facet_tag 1)));
         OfDirichletBC (Dolfinx.dirichletbc
                          {| Dolfinx.interpolant := "u_ex" |}
                          (Sample.locate_dofs_topological (Dolfinx.find facet_tag 2))) ]
    /\ F ns' =
       UFL.add Sample.base
         [ {| UFL.integrand := UFL.Mul Notebook.r (UFL.Inner (UFL.Sub u Notebook.s) v);
              UFL.measure := ds 3 |};
           {| UFL.integrand := UFL.Inner Notebook.g v; UFL.measure := ds 4 |} ]
    /\ Sample.form_value (F ns') =
       Sample.form_value Sample.base +
       (Sample.integral_value
          {| UFL.integrand := UFL.Mul Notebook.r (UFL.Inner u v); UFL.measure := ds 3 |} +
        - Sample.integral_value
            {| UFL.integrand := UFL.Mul Notebook.r (UFL.Inner Notebook.s v);
               UFL.measure := ds 3 |} +
        Sample.integral_value
          {| UFL.integrand := UFL.Inner Notebook.g v; UFL.measure := ds 4 |})
    /\ Permutation (Dolfinx.find facet_tag 1) [7; 2]
    /\ Permutation (Dolfinx.find facet_tag 2) [5]
    /\ Permutation (Dolfinx.find facet_tag 3) [9; 0]
    /\ Permutation (Dolfinx.find facet_tag 4) [4].
Proof.
  destruct (end_to_end_scenario
              Sample.locate_entities Sample.locate_dofs_topological
              Z 0 1 Z.add Z.mul Z.sub Z.opp InitialRing.Zth
              Z Sample.coefficient Sample.u_at Sample.v_at Sample.quadrature
              Sample.stale)
    as (facet_tag & ns' & Htag & Hrun & Hlen & Hbcs & HF & Hval & Hfind).
  exists facet_tag, ns'.
  repeat (split; [assumption|]).
  exact (Hfind eq_refl).
Defined.

Lemma order_independence_witness :
  match Sample.run Notebook.boundary_conditions Sample.stale,
        Sample.run (rev Notebook.boundary_conditions) Sample.stale with
  | (Ok _, ns1), (Ok _, ns2) =>
      Permutation (bcs ns1) (bcs ns2)
      /\ (forall x, In x (bcs ns1) <-> In x (bcs ns2))
      /\ Permutation (F ns1) (F ns2)
      /\ Sample.form_value (F ns1) = Sample.form_value (F ns2)
  | (Raise _, ns1), (Raise _, ns2) => ns1 = Sample.stale /\ ns2 = Sample.stale
  | _, _ => False
  end.
Proof.
  exact (order_independence
           Sample.facet_tag Sample.locate_dofs_topological
           Z 0 1 Z.add Z.mul Z.sub Z.opp InitialRing.Zth
           Z Sample.coefficient Sample.u_at Sample.v_at Sample.quadrature
           Notebook.boundary_conditions (rev Notebook.boundary_conditions) Sample.stale
           (Permutation_rev Notebook.boundary_conditions)).
Defined.

Lemma unknown_marker_witness :
  (exists ns',
      Sample.run [ {| kind := "Dirichlet"; marker := 77; values := Callable "u_ex" |};
                   {| kind := "Neumann"; marker := 88; values := Expression Notebook.g |};
                   {| kind := "Robin"; marker := 99;
                      values := Tuple [Notebook.r; Notebook.s] |} ] Sample.stale =
      (Ok tt, ns'))
  /\ Dolfinx.find Sample.facet_tag 77 = [].
Proof.
  destruct (unknown_marker_does_not_raise
              Sample.facet_tag Sample.locate_dofs_topological
              [ {| kind := "Dirichlet"; marker := 77; values := Callable "u_ex" |};
                {| kind := "Neumann"; marker := 88; values := Expression Notebook.g |};
                {| kind := "Robin"; marker := 99;
                   values := Tuple [Notebook.r; Notebook.s] |} ]
              Sample.stale) as [Hrun Hunknown].
  - intros sp [<-|[<-|[<-|[]]]]; reflexivity.
  - split; [exact Hrun|].
    apply (Hunknown {| kind := "Dirichlet"; marker := 77; values := Callable "u_ex" |}).
    + left. reflexivity.
    + simpl. intros [H|[H|[H|[H|[H|[H|[]]]]]]]; discriminate H.
Defined.

Lemma pure_transformation_witness :
  match Sample.run Notebook.boundary_conditions Sample.stale,
        Sample.run Notebook.boundary_conditions Sample.fresh with
  | (Ok _, ns1'), (Ok _, ns2') =>
      ns1' = ns2'
      /\ list_display (construct Sample.facet_tag Sample.locate_dofs_topological)
           Notebook.boundary_conditions = Ok (boundary_conditions ns1')
      /\ (exists terms, F ns1' = UFL.add (F Sample.stale) terms)
      /\ Sample.run Notebook.boundary_conditions
           {| boundary_conditions := boundary_conditions ns1';
              bcs := bcs ns1';
              F := F Sample.stale |} = (Ok tt, ns1')
  | (Raise e1, ns1'), (Raise e2, ns2') =>
      e1 = e2 /\ ns1' = Sample.stale /\ ns2' = Sample.fresh
  | _, _ => False
  end.
Proof.
  exact (pure_transformation
           Sample.facet_tag Sample.locate_dofs_topological
           Notebook.boundary_conditions Sample.stale Sample.fresh eq_refl).
Defined.

Lemma kind_dispatch_witness :
  BoundaryCondition_init Sample.facet_tag Sample.locate_dofs_topological
    "robin" 3 (Tuple [Notebook.r; Notebook.s]) =
  Raise (TypeError "Unknown boundary condition: robin")
  /\ BoundaryCondition_init Sample.facet_tag Sample.locate_dofs_topological
       "Robin" 3 (Tuple [Notebook.r; Notebook.s]) <>
     Raise (TypeError "Unknown boundary condition: Robin").
Proof.
  split.
  - apply (kind_dispatch_is_exact Sample.facet_tag Sample.locate_dofs_topological
             "robin" 3 (Tuple [Notebook.r; Notebook.s])); discriminate.
  - apply (kind_dispatch_is_exact Sample.facet_tag Sample.locate_dofs_topological
             "Robin" 3 (Tuple [Notebook.r; Notebook.s])).
    right; right. reflexivity.
Defined.

Lemma facet_tagging_witness :
  exists (tags : Dolfinx.MeshTags) (sorted_facets : list nat),
    Tagging.facet_tag _ Sample.locate_entities Tagging.boundaries = Ok tags
    /\ length (Dolfinx.indices tags) = length (Dolfinx.values tags)
    /\ Permutation (combine (Dolfinx.indices tags) (Dolfinx.values tags))
                   [ (7, 1); (2, 1); (5, 2); (9, 3); (0, 3); (4, 4) ]
    /\ (forall m, Permutation (Dolfinx.find tags m)
                              (Tagging.located_by _ Sample.locate_entities
                                                  Tagging.boundaries m))
    /\ Permutation sorted_facets [0; 1; 2; 3; 4; 5]%nat
    /\ Numpy.take [7; 2; 5; 9; 0; 4] sorted_facets = Ok (Dolfinx.indices tags)
    /\ Numpy.take [1; 1; 2; 3; 3; 4] sorted_facets = Ok (Dolfinx.values tags)
    /\ Sorted Z.le (Dolfinx.indices tags).
Proof.
  apply (facet_tagging_pairs_and_sorts _ Sample.locate_entities Tagging.boundaries).
  - discriminate.
  - reflexivity.
  - reflexivity.
Defined.


(* ================================================================== *)
(** * Further properties of the constructor and the aggregation cell *)

Lemma list_display_raise_inv {A B : Type} (f : A -> result B) (xs : list A) (e : exn) :
  list_display f xs = Raise e ->
  exists pre x post,
    xs = pre ++ x :: post
    /\ f x = Raise e
    /\ (forall y, In y pre -> exists b, f y = Ok b).
Proof.
  induction xs as [|x xs IH]; simpl; intros H.
  - discriminate.
  - destruct (f x) as [b|e0] eqn:Hx; simpl in H.
    + destruct (list_display f xs) as [bs|e1]; simpl in H; [discriminate|].
      injection H as ->.
      destruct (IH eq_refl) as (pre & y & post & -> & Hy & Hpre).
      exists (x :: pre), y, post. split; [reflexivity|]. split; [exact Hy|].
      intros z [<-|Hz]; eauto.
    + injection H as ->. exists [], x, xs. split; [reflexivity|]. split; [exact Hx|].
      intros y [].
Qed.

Section ClassifierExtras.

Variable facet_tag : Dolfinx.MeshTags.
Variable locate_dofs_topological : list Z -> list Z.

Local Abbreviation init := (BoundaryCondition_init facet_tag locate_dofs_topological).
Local Abbreviation build := (construct facet_tag locate_dofs_topological).
Local Abbreviation run := (classify_and_accumulate facet_tag locate_dofs_topological).

(** A run that returns has constructed every object and folded them all. *)
Lemma run_ok_inv (specs : list specification) (ns ns' : namespace) :
  run specs ns = (Ok tt, ns') ->
  exists cs,
    list_display build specs = Ok cs
    /\ ns' = {| boundary_conditions := cs;
                bcs := essential_of cs;
                F := UFL.add (F ns) (natural_of cs) |}.
Proof.
  intros H. destruct (list_display build specs) as [cs|e] eqn:Hcs.
  - rewrite (run_ok _ _ _ _ ns Hcs) in H. injection H as <-. eauto.
  - rewrite (run_raise _ _ _ _ ns Hcs) in H. discriminate.
Qed.

(** What a constructed object holds, by the kind it was given. *)
Lemma construct_ok_shape (sp : specification) (c : BoundaryCondition) :
  build sp = Ok c ->
  type c = kind sp
  /\ ((kind sp = "Dirichlet" /\ exists d, bc c = OfDirichletBC d)
      \/ (kind sp <> "Dirichlet"
          /\ exists e, bc c = OfForm [ {| UFL.integrand := e;
                                          UFL.measure := ds (marker sp) |} ])).
Proof.
  unfold construct. intros H. apply init_ok_inv in H.
  destruct H as [[Hk (f & _ & ->)]|[[Hk (g & _ & ->)]|[Hk (items & r & s & _ & _ & _ & ->)]]];
    cbn [type _type bc _bc]; (split; [reflexivity|]).
  - left. split; [exact Hk|]. eauto.
  - right. split; [rewrite Hk; discriminate|]. unfold neumann_term. eauto.
  - right. split; [rewrite Hk; discriminate|]. unfold robin_term. eauto.
Qed.

Lemma essential_of_app (cs1 cs2 : list BoundaryCondition) :
  essential_of (cs1 ++ cs2) = essential_of cs1 ++ essential_of cs2.
Proof. unfold essential_of. rewrite filter_app, map_app. reflexivity. Qed.

Lemma natural_of_app (cs1 cs2 : list BoundaryCondition) :
  natural_of (cs1 ++ cs2) = natural_of cs1 ++ natural_of cs2.
Proof. unfold natural_of. rewrite filter_app, flat_map_app. reflexivity. Qed.

Lemma constructed_counts (specs : list specification) (cs : list BoundaryCondition) :
  Forall2 (fun sp c => build sp = Ok c) specs cs ->
  length (essential_of cs) =
  length (filter (fun sp => String.eqb (kind sp) "Dirichlet") specs)
  /\ length (natural_of cs) =
     length (filter (fun sp => negb (String.eqb (kind sp) "Dirichlet")) specs)
  /\ Forall (fun b => exists d, b = OfDirichletBC d) (essential_of cs)
  /\ Forall (fun i => UFL.measure_type (UFL.measure i) = UFL.exterior_facet
                      /\ exists sp, In sp specs
                                    /\ kind sp <> "Dirichlet"
                                    /\ UFL.subdomain_id (UFL.measure i) = Some (marker sp))
            (natural_of cs).
Proof.
  induction 1 as [|sp c specs cs Hc _ IH].
  - repeat split; constructor.
  - destruct IH as (IH1 & IH2 & IH3 & IH4).
    apply construct_ok_shape in Hc as [Hty Hshape].
    change (c :: cs) with ([c] ++ cs).
    rewrite essential_of_app, natural_of_app.
    unfold essential_of at 1 3, natural_of at 1 3. cbn [filter map flat_map app].
    rewrite Hty.
    assert (Hrest : Forall (fun i => UFL.measure_type (UFL.measure i) = UFL.exterior_facet
                                     /\ exists sp0, In sp0 (sp :: specs)
                                                    /\ kind sp0 <> "Dirichlet"
                                                    /\ UFL.subdomain_id (UFL.measure i) =
                                                       Some (marker sp0))
                           (natural_of cs)).
    { eapply Forall_impl; [|exact IH4]. intros i (Hi & sp0 & Hin & Hk & Hm).
      split; [exact Hi|]. exists sp0. split; [right; exact Hin|]. auto. }
    destruct Hshape as [[Hk (d & Hd)]|[Hk (e & He)]].
    + rewrite Hk. cbn. rewrite Hd, IH1, IH2.
      repeat split; try reflexivity; [constructor; eauto|exact Hrest].
    + apply String.eqb_neq in Hk as Hkb. rewrite Hkb. cbn.
      unfold terms_of. rewrite He. cbn. rewrite IH1, IH2.
      repeat split; try reflexivity; [exact IH3|].
      constructor; [|exact Hrest].
      cbn. split; [reflexivity|]. exists sp. split; [left; reflexivity|]. auto.
Qed.

(** X1. Whatever exception a run ends with, it is the exception of the
    first entry whose constructor call raises, and the namespace is left
    as it was: the aggregation loop itself never raises on constructed
    objects. *)
Theorem run_failure_is_first_construction_failure
        (specs : list specification) (ns ns' : namespace) (e : exn) :
  run specs ns = (Raise e, ns') ->
  ns' = ns
  /\ exists pre sp post,
       specs = pre ++ sp :: post
       /\ build sp = Raise e
       /\ (forall x, In x pre -> exists c, build x = Ok c).
Proof.
  intros H. destruct (list_display build specs) as [cs|e0] eqn:Hcs.
  - rewrite (run_ok _ _ _ _ ns Hcs) in H. discriminate.
  - rewrite (run_raise _ _ _ _ ns Hcs) in H. injection H as -> <-.
    split; [reflexivity|]. apply list_display_raise_inv. exact Hcs.
Qed.


(** X3. Running on a first list and then, from the namespace it leaves, on
    a second list accumulates the residual that one run on the two lists
    joined accumulates; the joined run keeps the objects and the Dirichlet
    conditions of both, in order. *)
Theorem run_on_joined_lists (specs1 specs2 : list specification) (ns ns1 ns2 : namespace) :
  run specs1 ns = (Ok tt, ns1) ->
  run specs2 ns1 = (Ok tt, ns2) ->
  run (specs1 ++ specs2) ns =
  (Ok tt, {| boundary_conditions := boundary_conditions ns1 ++ boundary_conditions ns2;
             bcs := bcs ns1 ++ bcs ns2;
             F := F ns2 |}).
Proof.
  intros H1 H2.
  apply run_ok_inv in H1 as (cs1 & Hcs1 & ->).
  apply run_ok_inv in H2 as (cs2 & Hcs2 & ->).
  cbn [boundary_conditions bcs F].
  assert (Hcs : list_display build (specs1 ++ specs2) = Ok (cs1 ++ cs2))
    by (rewrite list_display_app, Hcs1, Hcs2; reflexivity).
  rewrite (run_ok _ _ _ _ ns Hcs).
  rewrite essential_of_app, natural_of_app. unfold UFL.add. rewrite app_assoc.
  reflexivity.
Qed.

(** X4. Executing the aggregation cell once more on the namespace a run
    has left returns the same Dirichlet conditions but adds the boundary
    integrals to [F] a second time: one more integral per entry that is
    not of kind "Dirichlet". *)
Theorem aggregating_again_adds_the_terms_again
        (specs : list specification) (ns ns1 : namespace) :
  run specs ns = (Ok tt, ns1) ->
  exists terms,
    F ns1 = UFL.add (F ns) terms
    /\ length terms =
       length (filter (fun sp => negb (String.eqb (kind sp) "Dirichlet")) specs)
    /\ aggregate ns1 =
       (Ok tt, {| boundary_conditions := boundary_conditions ns1;
                  bcs := bcs ns1;
                  F := UFL.add (UFL.add (F ns) terms) terms |}).
Proof.
  intros H. apply run_ok_inv in H as (cs & Hcs & ->). cbn [boundary_conditions bcs F].
  exists (natural_of cs). split; [reflexivity|].
  pose proof (display_addable _ _ _ _ Hcs) as Hadd.
  apply list_display_ok_inv in Hcs.
  destruct (constructed_counts specs cs Hcs) as (_ & H2 & _).
  split; [exact H2|].
  unfold aggregate, bind, assign_bcs, read. cbn [boundary_conditions bcs F].
  rewrite (for_condition_addable cs Hadd). reflexivity.
Qed.

(** X5. A Robin entry is built from the first two items of its tuple and
    ignores any further item; with fewer than two items its constructor
    call raises the tuple's index error. *)
Theorem robin_tuple_bounds (m : Z) (items : list UFL.expr) :
  match items with
  | r :: s :: _ =>
      init "Robin" m (Tuple items) = init "Robin" m (Tuple [r; s])
      /\ exists c, init "Robin" m (Tuple items) = Ok c
                   /\ bc c = OfForm [ {| UFL.integrand := UFL.Mul r (UFL.Inner (UFL.Sub u s) v);
                                         UFL.measure := ds m |} ]
  | _ => init "Robin" m (Tuple items) = Raise (IndexError "tuple index out of range")
  end.
Proof.
  destruct items as [|r [|s rest]]; try reflexivity.
  split; [reflexivity|]. eexists. split; reflexivity.
Qed.

End ClassifierExtras.


(* ================================================================== *)
(** * The residual against the stated variational problem *)

Section BoundaryFormsFacts.

Variable facet_tag : Dolfinx.MeshTags.
Variable locate_dofs_topological : list Z -> list Z.

Variable K : Type.
Variables (kO kI : K) (kadd kmul ksub : K -> K -> K) (kopp : K -> K).
Hypothesis Kth : ring_theory kO kI kadd kmul ksub kopp eq.
Add Ring KringBoundary : Kth.

Variable point : Type.
Variable coefficient : string -> point -> K.
Variables (u_at v_at : point -> K).
Variable quadrature : UFL.Measure -> list (point * K).

Local Abbreviation build := (construct facet_tag locate_dofs_topological).
Local Abbreviation run := (classify_and_accumulate facet_tag locate_dofs_topological).
Local Abbreviation ival :=
  (integral_value K kO kadd kmul ksub point coefficient u_at v_at quadrature).
Local Abbreviation fval :=
  (form_value K kO kadd kmul ksub point coefficient u_at v_at quadrature).
Local Abbreviation a_b :=
  (a_boundary K kO kadd kmul ksub point coefficient u_at v_at quadrature).
Local Abbreviation L_b :=
  (L_boundary K kO kadd kmul ksub kopp point coefficient u_at v_at quadrature).

Lemma natural_value (specs : list specification) (cs : list BoundaryCondition) :
  Forall2 (fun sp c => build sp = Ok c) specs cs ->
  fval (natural_of cs) = kadd (a_b specs) (kopp (L_b specs)).
Proof.
  induction 1 as [|sp c specs cs Hc _ IH].
  - cbn. ring.
  - change (c :: cs) with ([c] ++ cs).
    rewrite natural_of_app.
    rewrite (form_value_app K kO kI kadd kmul ksub kopp Kth), IH.
    unfold a_boundary, L_boundary. cbn [fold_right].
    fold (a_b specs). fold (L_b specs).
    destruct sp as [k m vals]. unfold construct in Hc. cbn [kind marker values] in Hc.
    apply init_ok_inv in Hc.
    destruct Hc as [[-> (f & -> & ->)]|[[-> (g & -> & ->)]
                                       |[-> (items & r & s & -> & H0 & H1 & ->)]]].
    + unfold a_entry, L_entry. cbn -[integral_value]. ring.
    + unfold a_entry, L_entry, natural_of, terms_of, neumann_term.
      cbn -[integral_value]. ring.
    + destruct items as [|r0 [|s0 rest]]; try discriminate.
      injection H0 as ->. injection H1 as ->.
      unfold a_entry, L_entry, natural_of, terms_of.
      cbn -[integral_value robin_term].
      rewrite (robin_term_splits K kO kI kadd kmul ksub kopp Kth
                 point coefficient u_at v_at quadrature m r s).
      ring.
Qed.

(** X6. After a run that returns, the value of the residual is the value
    it had, plus the boundary part of [a(u, v)], minus the boundary part of
    [L(v)], as the notebook states them: Robin parts contribute [r * u * v]
    to [a] and [r * s * v] to [L], Neumann parts contribute [- g * v] to
    [L], and Dirichlet entries contribute nothing. *)
Theorem residual_is_a_minus_L (specs : list specification) (ns ns' : namespace) :
  run specs ns = (Ok tt, ns') ->
  fval (F ns') = kadd (fval (F ns)) (kadd (a_b specs) (kopp (L_b specs))).
Proof.
  intros H. apply run_ok_inv in H as (cs & Hcs & ->). cbn [F].
  rewrite (form_value_app K kO kI kadd kmul ksub kopp Kth).
  rewrite (natural_value specs cs (list_display_ok_inv _ _ _ Hcs)).
  reflexivity.
Qed.

End BoundaryFormsFacts.


(* ================================================================== *)
(** * Further properties of the facet-tagging cell *)

Lemma take_argsort_sorted (a : list Z) :
  Sorted Z.le (map (entry a) (Numpy.argsort a)).
Proof.
  pose proof (NumpyFacts.take_argsort a) as H.
  rewrite NumpyFacts.take_in_bounds in H by apply NumpyFacts.argsort_in_bounds.
  injection H as ->. apply NumpyFacts.sort_keys_sorted.
Qed.

Lemma take_argsort_permutation (a : list Z) :
  Permutation (map (entry a) (Numpy.argsort a)) a.
Proof.
  eapply perm_trans; [apply Permutation_map, NumpyFacts.argsort_permutation|].
  unfold entry. rewrite NumpyFacts.map_nth_seq. apply Permutation_refl.
Qed.

Lemma map_fst_combine {A B : Type} (a : list A) (b : list B) :
  length a = length b -> map fst (combine a b) = a.
Proof.
  revert b. induction a as [|x a IH]; intros [|y b] H; simpl in *; try discriminate.
  - reflexivity.
  - f_equal. apply IH. lia.
Qed.

Lemma sorted_filter_fst (p : Z * Z -> bool) (l : list (Z * Z)) :
  StronglySorted Z.le (map fst l) -> StronglySorted Z.le (map fst (filter p l)).
Proof.
  induction l as [|x l IH]; simpl; intros Hs.
  - constructor.
  - inversion Hs as [|? ? Hs' Hall]; subst.
    destruct (p x); simpl; [|apply IH; exact Hs'].
    constructor; [apply IH; exact Hs'|].
    rewrite Forall_forall in *. intros k Hk.
    apply in_map_iff in Hk as (y & <- & Hy). apply filter_In in Hy as [Hy _].
    apply Hall. apply in_map. exact Hy.
Qed.

Lemma strictly_sorted_of_nodup (l : list Z) :
  StronglySorted Z.le l -> NoDup l -> StronglySorted Z.lt l.
Proof.
  induction 1 as [|x l Hs IH Hall]; intros Hnd.
  - constructor.
  - inversion Hnd as [|? ? Hx Hnd']; subst.
    constructor; [apply IH; exact Hnd'|].
    rewrite Forall_forall in *. intros y Hy.
    specialize (Hall y Hy).
    assert (x <> y) by (intros ->; contradiction). lia.
Qed.

(** Two lists of pairs with the same entries, both in strictly increasing
    order of their first components, are the same list. *)
Lemma sorted_pairs_unique (l1 l2 : list (Z * Z)) :
  Permutation l1 l2 ->
  StronglySorted Z.lt (map fst l1) ->
  StronglySorted Z.lt (map fst l2) ->
  l1 = l2.
Proof.
  revert l2. induction l1 as [|x t1 IH]; intros l2 Hp S1 S2.
  - apply Permutation_nil in Hp. subst. reflexivity.
  - destruct l2 as [|y t2].
    { apply Permutation_sym, Permutation_nil in Hp. discriminate. }
    simpl in S1, S2.
    inversion S1 as [|? ? S1' F1]; inversion S2 as [|? ? S2' F2]; subst.
    assert (Hxy : x = y).
    { assert (Hx : In x (y :: t2)) by (eapply Permutation_in; [exact Hp|left; reflexivity]).
      assert (Hy : In y (x :: t1))
        by (eapply Permutation_in; [apply Permutation_sym; exact Hp|left; reflexivity]).
      destruct Hx as [Hx|Hx]; [congruence|].
      destruct Hy as [Hy|Hy]; [exact Hy|].
      rewrite Forall_forall in F1, F2.
      pose proof (F1 (fst y) (in_map fst _ _ Hy)).
      pose proof (F2 (fst x) (in_map fst _ _ Hx)). lia. }
    subst y. f_equal. apply IH; [|exact S1'|exact S2'].
    eapply Permutation_cons_inv. exact Hp.
Qed.

Lemma forallb_permutation {A : Type} (p : A -> bool) (l l' : list A) :
  Permutation l l' -> forallb p l = true -> forallb p l' = true.
Proof.
  intros Hp H. rewrite forallb_forall in *. intros x Hx.
  apply H. eapply Permutation_in; [apply Permutation_sym; exact Hp|exact Hx].
Qed.

Section TaggingExtras.

Variable locator : Type.
Variable locate_entities : locator -> list Z.

Local Abbreviation pairs := (Tagging.located_pairs locator locate_entities).
Local Abbreviation tag := (Tagging.facet_tag locator locate_entities).
Local Abbreviation stacked bs :=
  (concat (map (fun b : Z * locator => locate_entities (snd b)) bs)).

Lemma located_by_member (bs : list (Z * locator)) (m facet : Z) :
  In facet (Tagging.located_by locator locate_entities bs m) <->
  exists loc, In (m, loc) bs /\ In facet (locate_entities loc).
Proof.
  unfold Tagging.located_by. rewrite in_flat_map. split.
  - intros ([m' loc] & Hb & Hin). simpl in Hin.
    destruct (m' =? m) eqn:Hm; [|contradiction].
    apply Z.eqb_eq in Hm as ->. eauto.
  - intros (loc & Hb & Hin). exists (m, loc). split; [exact Hb|].
    simpl. rewrite Z.eqb_refl. exact Hin.
Qed.

(** X7. On 32-bit markers and facets the tagging cell raises exactly when
    the boundary list is empty, with the refusal of [np.hstack]; otherwise
    it returns tags with one entry per located facet, none dropped and
    none merged, also when no locator finds any facet. *)
Theorem tagging_raises_only_on_empty_list (bs : list (Z * locator)) :
  forallb (fun b => Numpy.in_int32b (fst b)) bs = true ->
  forallb (fun b => forallb Numpy.in_int32b (locate_entities (snd b))) bs = true ->
  (bs = [] /\ tag bs = Raise (ValueError "need at least one array to concatenate"))
  \/ (bs <> []
      /\ exists tags,
           tag bs = Ok tags
           /\ length (Dolfinx.indices tags) = length (stacked bs)
           /\ length (Dolfinx.values tags) = length (stacked bs)).
Proof.
  intros Hm Hf. destruct bs as [|b bs].
  - left. split; reflexivity.
  - right. split; [discriminate|].
    destruct (facet_tag_in_range _ locate_entities (b :: bs)) as (_ & _ & Htag);
      [discriminate|exact Hm|exact Hf|].
    eexists. split; [exact Htag|].
    cbn [Dolfinx.meshtags Dolfinx.indices Dolfinx.values].
    rewrite stacked_indices, !length_map, NumpyFacts.argsort_length, !length_map.
    split; reflexivity.
Qed.

(** X8. The cell does not check that the boundaries are disjoint: the
    facet array it hands to [meshtags] is free of repetitions exactly when
    no facet is located twice, and it is then strictly increasing. *)
Theorem tags_unique_iff_located_once (bs : list (Z * locator)) :
  bs <> [] ->
  forallb (fun b => Numpy.in_int32b (fst b)) bs = true ->
  forallb (fun b => forallb Numpy.in_int32b (locate_entities (snd b))) bs = true ->
  exists tags,
    tag bs = Ok tags
    /\ (NoDup (Dolfinx.indices tags) <-> NoDup (stacked bs))
    /\ (NoDup (stacked bs) -> StronglySorted Z.lt (Dolfinx.indices tags)).
Proof.
  intros Hne Hm Hf.
  destruct (facet_tag_in_range _ locate_entities bs Hne Hm Hf) as (_ & _ & Htag).
  eexists. split; [exact Htag|].
  cbn [Dolfinx.meshtags Dolfinx.indices]. rewrite stacked_indices.
  set (idx := map fst (pairs bs)).
  assert (Hiff : NoDup (map (entry idx) (Numpy.argsort idx)) <-> NoDup idx).
  { split; apply Permutation_NoDup;
      [|apply Permutation_sym]; apply take_argsort_permutation. }
  split; [exact Hiff|].
  intros Hnd. apply strictly_sorted_of_nodup.
  - apply Sorted_StronglySorted; [exact Z.le_trans|apply take_argsort_sorted].
  - apply Hiff. exact Hnd.
Qed.

(** X9. After tagging, looking a marker up returns its facets in
    non-decreasing order, and a facet is returned exactly when some
    boundary with that marker located it: a marker no boundary carries
    finds nothing, and a facet located under two markers is found under
    both. *)
Theorem find_after_tagging (bs : list (Z * locator)) :
  bs <> [] ->
  forallb (fun b => Numpy.in_int32b (fst b)) bs = true ->
  forallb (fun b => forallb Numpy.in_int32b (locate_entities (snd b))) bs = true ->
  exists tags,
    tag bs = Ok tags
    /\ forall m,
         Sorted Z.le (Dolfinx.find tags m)
         /\ (forall facet,
                In facet (Dolfinx.find tags m) <->
                exists loc, In (m, loc) bs /\ In facet (locate_entities loc)).
Proof.
  intros Hne Hm Hf.
  destruct (facet_tag_in_range _ locate_entities bs Hne Hm Hf) as (_ & _ & Htag).
  eexists. split; [exact Htag|]. intros m. split.
  - unfold Dolfinx.find. cbn [Dolfinx.meshtags Dolfinx.indices Dolfinx.values].
    apply StronglySorted_Sorted, sorted_filter_fst.
    rewrite map_fst_combine by (rewrite !length_map; reflexivity).
    apply Sorted_StronglySorted; [exact Z.le_trans|apply take_argsort_sorted].
  - intros facet. rewrite <- located_by_member.
    assert (Hp : Permutation
                   (Dolfinx.find
                      (Dolfinx.meshtags
                         (map (entry (map fst (pairs bs))) (Numpy.argsort (map fst (pairs bs))))
                         (map (entry (map snd (pairs bs))) (Numpy.argsort (map fst (pairs bs)))))
                      m)
                   (Tagging.located_by locator locate_entities bs m))
      by (apply find_located; apply tagged_pairs).
    split; apply Permutation_in; [exact Hp|apply Permutation_sym; exact Hp].
Qed.

(** X10. When no facet is located twice, the tags do not depend on the
    order of the boundary list. *)
Theorem tagging_ignores_boundary_order (bs bs' : list (Z * locator)) :
  Permutation bs bs' ->
  bs <> [] ->
  forallb (fun b => Numpy.in_int32b (fst b)) bs = true ->
  forallb (fun b => forallb Numpy.in_int32b (locate_entities (snd b))) bs = true ->
  NoDup (stacked bs) ->
  exists tags, tag bs = Ok tags /\ tag bs' = Ok tags.
Proof.
  intros Hp Hne Hm Hf Hnd.
  assert (Hne' : bs' <> []).
  { intros ->. apply Permutation_sym, Permutation_nil in Hp. contradiction. }
  destruct (facet_tag_in_range _ locate_entities bs Hne Hm Hf) as (_ & _ & Htag).
  destruct (facet_tag_in_range _ locate_entities bs' Hne'
              (forallb_permutation _ _ _ Hp Hm) (forallb_permutation _ _ _ Hp Hf))
    as (_ & _ & Htag').
  eexists. split; [exact Htag|]. rewrite Htag'. f_equal.
  assert (Hpairs : Permutation (pairs bs) (pairs bs'))
    by (unfold Tagging.located_pairs; apply Permutation_flat_map, Hp).
  rewrite stacked_indices in Hnd.
  set (idx := map fst (pairs bs)) in *. set (mk := map snd (pairs bs)) in *.
  set (idx' := map fst (pairs bs')) in *. set (mk' := map snd (pairs bs')) in *.
  assert (Hnd' : NoDup idx')
    by (eapply Permutation_NoDup; [apply Permutation_map, Hpairs|exact Hnd]).
  assert (Hstrict : forall a, NoDup a ->
                      StronglySorted Z.lt (map (entry a) (Numpy.argsort a))).
  { intros a Ha. apply strictly_sorted_of_nodup.
    - apply Sorted_StronglySorted; [exact Z.le_trans|apply take_argsort_sorted].
    - eapply Permutation_NoDup; [apply Permutation_sym, take_argsort_permutation|exact Ha]. }
  assert (Heq : combine (map (entry idx) (Numpy.argsort idx))
                        (map (entry mk) (Numpy.argsort idx)) =
                combine (map (entry idx') (Numpy.argsort idx'))
                        (map (entry mk') (Numpy.argsort idx'))).
  { apply sorted_pairs_unique.
    - eapply perm_trans; [apply tagged_pairs|].
      eapply perm_trans; [exact Hpairs|apply Permutation_sym, tagged_pairs].
    - rewrite map_fst_combine by (rewrite !length_map; reflexivity).
      apply Hstrict, Hnd.
    - rewrite map_fst_combine by (rewrite !length_map; reflexivity).
      apply Hstrict, Hnd'. }
  unfold Dolfinx.meshtags. f_equal.
  - apply (f_equal (map fst)) in Heq.
    rewrite !map_fst_combine in Heq by (rewrite !length_map; reflexivity).
    symmetry. exact Heq.
  - apply (f_equal (map snd)) in Heq.
    rewrite !NumpyFacts.map_snd_combine in Heq by (rewrite !length_map; reflexivity).
    symmetry. exact Heq.
Qed.

End TaggingExtras.


(* ================================================================== *)
(** * Tagged facets, marker by marker *)

Lemma buckets_skip (x : Z * Z) (l : list (Z * Z)) (ms : list Z) :
  ~ In (snd x) ms ->
  flat_map (fun m => filter (fun p => snd p =? m) (x :: l)) ms =
  flat_map (fun m => filter (fun p => snd p =? m) l) ms.
Proof.
  assert (Hcons : forall (f : Z -> list (Z * Z)) a t, flat_map f (a :: t) = f a ++ flat_map f t)
    by reflexivity.
  induction ms as [|m ms IH]; intros Hout; [reflexivity|].
  rewrite !Hcons, IH by (intros Hin; apply Hout; right; exact Hin).
  cbn [filter].
  destruct (snd x =? m) eqn:Hm; [|reflexivity].
  apply Z.eqb_eq in Hm. exfalso. apply Hout. left. symmetry. exact Hm.
Qed.

(** Sorting pairs into one bucket per marker, over distinct markers that
    cover the pairs, loses and repeats nothing. *)
Lemma buckets_permutation (l : list (Z * Z)) (ms : list Z) :
  NoDup ms ->
  (forall p, In p l -> In (snd p) ms) ->
  Permutation (flat_map (fun m => filter (fun p => snd p =? m) l) ms) l.
Proof.
  intros Hnd. induction l as [|x l IH]; intros Hcover.
  - clear Hnd Hcover. induction ms as [|m ms IHm]; [constructor|exact IHm].
  - assert (Hx : In (snd x) ms) by (apply Hcover; left; reflexivity).
    apply in_split in Hx as (ms1 & ms2 & Hms).
    assert (Hout : ~ In (snd x) ms1 /\ ~ In (snd x) ms2).
    { rewrite Hms in Hnd. apply NoDup_remove_2 in Hnd.
      split; intros Hin; apply Hnd; apply in_or_app; auto. }
    destruct Hout as [Hout1 Hout2].
    specialize (IH (fun p Hp => Hcover p (or_intror Hp))).
    rewrite Hms in IH |- *.
    rewrite flat_map_app in IH |- *.
    rewrite (buckets_skip x l ms1 Hout1).
    change (flat_map (fun m => filter (fun p => snd p =? m) (x :: l)) (snd x :: ms2))
      with (filter (fun p => snd p =? snd x) (x :: l)
            ++ flat_map (fun m => filter (fun p => snd p =? m) (x :: l)) ms2).
    change (flat_map (fun m => filter (fun p => snd p =? m) l) (snd x :: ms2))
      with (filter (fun p => snd p =? snd x) l
            ++ flat_map (fun m => filter (fun p => snd p =? m) l) ms2) in IH.
    rewrite (buckets_skip x l ms2 Hout2).
    cbn [filter]. rewrite Z.eqb_refl.
    eapply perm_trans; [|apply perm_skip, IH].
    apply Permutation_sym. cbn [app]. apply Permutation_middle.
Qed.

Lemma flat_map_map_fst (f : Z -> list (Z * Z)) (ms : list Z) :
  flat_map (fun m => map fst (f m)) ms = map fst (flat_map f ms).
Proof.
  induction ms as [|m ms IH]; simpl; [reflexivity|].
  rewrite map_app, IH. reflexivity.
Qed.

Section TaggedByMarker.

Variable locator : Type.
Variable locate_entities : locator -> list Z.

(** X11. Looking up, one after the other, the distinct markers of the
    boundary list returns every tagged facet once per tag it carries:
    nothing tagged is missed by the markers, and nothing is returned that
    was not tagged. *)
Theorem markers_cover_the_tags (bs : list (Z * locator)) :
  bs <> [] ->
  forallb (fun b => Numpy.in_int32b (fst b)) bs = true ->
  forallb (fun b => forallb Numpy.in_int32b (locate_entities (snd b))) bs = true ->
  exists tags,
    Tagging.facet_tag locator locate_entities bs = Ok tags
    /\ Permutation (flat_map (Dolfinx.find tags) (nodup Z.eq_dec (map fst bs)))
                   (Dolfinx.indices tags).
Proof.
  intros Hne Hm Hf.
  destruct (facet_tag_in_range _ locate_entities bs Hne Hm Hf) as (_ & _ & Htag).
  eexists. split; [exact Htag|].
  unfold Dolfinx.find. cbn [Dolfinx.meshtags Dolfinx.indices Dolfinx.values].
  set (idx := map fst (Tagging.located_pairs locator locate_entities bs)).
  set (mk := map snd (Tagging.located_pairs locator locate_entities bs)).
  set (I := map (entry idx) (Numpy.argsort idx)).
  set (V := map (entry mk) (Numpy.argsort idx)).
  rewrite (flat_map_map_fst (fun m => filter (fun iv => snd iv =? m) (combine I V))).
  apply perm_trans with (map fst (combine I V));
    [|rewrite map_fst_combine by (unfold I, V; rewrite !length_map; reflexivity);
      apply Permutation_refl].
  apply Permutation_map, buckets_permutation.
  - apply NoDup_nodup.
  - intros p Hp. apply nodup_In.
    apply (Permutation_in _ (tagged_pairs _ locate_entities bs)) in Hp.
    unfold Tagging.located_pairs in Hp.
    apply in_flat_map in Hp as (b & Hb & Hin).
    apply in_map_iff in Hin as (facet & <- & _). simpl.
    apply in_map. exact Hb.
Qed.

End TaggedByMarker.


(* ================================================================== *)
(** * The further properties at work on the concrete setting *)

Lemma run_failure_witness :
  Sample.stale = Sample.stale
  /\ exists pre sp post,
       [ {| kind := "Dirichlet"; marker := 1; values := Callable "u_ex" |};
         {| kind := "Robin"; marker := 3; values := Tuple [Notebook.r] |};
         Sample.periodic ] = pre ++ sp :: post
       /\ construct Sample.facet_tag Sample.locate_dofs_topological sp =
          Raise (IndexError "tuple index out of range")
       /\ (forall x, In x pre ->
                     exists c, construct Sample.facet_tag Sample.locate_dofs_topological x = Ok c).
Proof.
  exact (run_failure_is_first_construction_failure
           Sample.facet_tag Sample.locate_dofs_topological
           [ {| kind := "Dirichlet"; marker := 1; values := Callable "u_ex" |};
             {| kind := "Robin"; marker := 3; values := Tuple [Notebook.r] |};
             Sample.periodic ]
           Sample.stale Sample.stale (IndexError "tuple index out of range") eq_refl).
Defined.


Lemma run_on_joined_lists_witness :
  exists ns1 ns2,
    Sample.run [ {| kind := "Dirichlet"; marker := 1; values := Callable "u_ex" |};
                 {| kind := "Robin"; marker := 3;
                    values := Tuple [Notebook.r; Notebook.s] |} ] Sample.stale = (Ok tt, ns1)
    /\ Sample.run [ {| kind := "Neumann"; marker := 4; values := Expression Notebook.g |};
                    {| kind := "Dirichlet"; marker := 2; values := Callable "u_ex" |} ] ns1 =
       (Ok tt, ns2)
    /\ Sample.run [ {| kind := "Dirichlet"; marker := 1; values := Callable "u_ex" |};
                    {| kind := "Robin"; marker := 3;
                       values := Tuple [Notebook.r; Notebook.s] |};
                    {| kind := "Neumann"; marker := 4; values := Expression Notebook.g |};
                    {| kind := "Dirichlet"; marker := 2; values := Callable "u_ex" |} ]
                  Sample.stale =
       (Ok tt, {| boundary_conditions := boundary_conditions ns1 ++ boundary_conditions ns2;
                  bcs := bcs ns1 ++ bcs ns2;
                  F := F ns2 |}).
Proof.
  eexists. eexists. split; [reflexivity|]. split; [reflexivity|].
  exact (run_on_joined_lists
           Sample.facet_tag Sample.locate_dofs_topological
           [ {| kind := "Dirichlet"; marker := 1; values := Callable "u_ex" |};
             {| kind := "Robin"; marker := 3; values := Tuple [Notebook.r; Notebook.s] |} ]
           [ {| kind := "Neumann"; marker := 4; values := Expression Notebook.g |};
             {| kind := "Dirichlet"; marker := 2; values := Callable "u_ex" |} ]
           Sample.stale _ _ eq_refl eq_refl).
Defined.

Lemma aggregating_again_witness :
  exists ns1 terms,
    Sample.run Notebook.boundary_conditions Sample.stale = (Ok tt, ns1)
    /\ F ns1 = UFL.add Sample.base terms
    /\ length terms = 2%nat
    /\ aggregate ns1 =
       (Ok tt, {| boundary_conditions := boundary_conditions ns1;
                  bcs := bcs ns1;
                  F := UFL.add (UFL.add Sample.base terms) terms |}).
Proof.
  eexists.
  destruct (aggregating_again_adds_the_terms_again
              Sample.facet_tag Sample.locate_dofs_topological
              Notebook.boundary_conditions Sample.stale _ eq_refl)
    as (terms & HF & Hlen & Hagain).
  exists terms. split; [reflexivity|]. split; [exact HF|]. split; [exact Hlen|exact Hagain].
Defined.

Lemma residual_is_a_minus_L_witness :
  exists ns',
    Sample.run Notebook.boundary_conditions Sample.stale = (Ok tt, ns')
    /\ Sample.form_value (F ns') =
       Sample.form_value Sample.base +
       (a_boundary Z 0 Z.add Z.mul Z.sub Z Sample.coefficient Sample.u_at Sample.v_at
                   Sample.quadrature Notebook.boundary_conditions
        + - L_boundary Z 0 Z.add Z.mul Z.sub Z.opp Z Sample.coefficient Sample.u_at Sample.v_at
                       Sample.quadrature Notebook.boundary_conditions).
Proof.
  eexists. split; [reflexivity|].
  exact (residual_is_a_minus_L
           Sample.facet_tag Sample.locate_dofs_topological
           Z 0 1 Z.add Z.mul Z.sub Z.opp InitialRing.Zth
           Z Sample.coefficient Sample.u_at Sample.v_at Sample.quadrature
           Notebook.boundary_conditions Sample.stale _ eq_refl).
Defined.

Lemma tagging_raises_only_on_empty_list_witness :
  (Tagging.boundaries = []
   /\ Tagging.facet_tag _ Sample.locate_entities Tagging.boundaries =
      Raise (ValueError "need at least one array to concatenate"))
  \/ (Tagging.boundaries <> []
      /\ exists tags,
           Tagging.facet_tag _ Sample.locate_entities Tagging.boundaries = Ok tags
           /\ length (Dolfinx.indices tags) = 6%nat
           /\ length (Dolfinx.values tags) = 6%nat).
Proof.
  exact (tagging_raises_only_on_empty_list _ Sample.locate_entities Tagging.boundaries
           eq_refl eq_refl).
Defined.

Lemma tags_unique_witness :
  exists tags,
    Tagging.facet_tag _ Sample.locate_entities Tagging.boundaries = Ok tags
    /\ (NoDup (Dolfinx.indices tags) <-> NoDup [7; 2; 5; 9; 0; 4])
    /\ (NoDup [7; 2; 5; 9; 0; 4] -> StronglySorted Z.lt (Dolfinx.indices tags)).
Proof.
  apply (tags_unique_iff_located_once _ Sample.locate_entities Tagging.boundaries).
  - discriminate.
  - reflexivity.
  - reflexivity.
Defined.

Lemma find_after_tagging_witness :
  exists tags,
    Tagging.facet_tag _ Sample.locate_entities Tagging.boundaries = Ok tags
    /\ forall m,
         Sorted Z.le (Dolfinx.find tags m)
         /\ (forall facet,
                In facet (Dolfinx.find tags m) <->
                exists loc, In (m, loc) Tagging.boundaries
                            /\ In facet (Sample.locate_entities loc)).
Proof.
  apply (find_after_tagging _ Sample.locate_entities Tagging.boundaries).
  - discriminate.
  - reflexivity.
  - reflexivity.
Defined.

Lemma tagging_ignores_boundary_order_witness :
  exists tags,
    Tagging.facet_tag _ Sample.locate_entities Tagging.boundaries = Ok tags
    /\ Tagging.facet_tag _ Sample.locate_entities (rev Tagging.boundaries) = Ok tags.
Proof.
  apply (tagging_ignores_boundary_order _ Sample.locate_entities
           Tagging.boundaries (rev Tagging.boundaries)).
  - apply Permutation_rev.
  - discriminate.
  - reflexivity.
  - reflexivity.
  - repeat (constructor;
            [simpl; intros H; repeat (destruct H as [H|H]; [discriminate H|]); exact H|]).
    constructor.
Defined.

Lemma markers_cover_the_tags_witness :
  exists tags,
    Tagging.facet_tag _ Sample.locate_entities Tagging.boundaries = Ok tags
    /\ Permutation (flat_map (Dolfinx.find tags) [1; 2; 3; 4]) (Dolfinx.indices tags).
Proof.
  apply (markers_cover_the_tags _ Sample.locate_entities Tagging.boundaries).
  - discriminate.
  - reflexivity.
  - reflexivity.
Defined.
